(** * The customization-request relay: a model of [server.js] and of its
    static-token variant, and the properties of their request handlers.

    The handlers are written in a monad of exceptions over the disk and the
    trace of outbound calls; what the platform answers, the clock and two
    corners of the runtime are taken from a [world]. Strings are byte
    strings: a JavaScript string is kept as its UTF-8 encoding, so that
    [Buffer.from(s, "utf8")] is the string itself. Numbers are the doubles
    that are integers, each kept as the integer it is (the handlers only
    test a number for zero and print it); where an integer is printed that
    is no double, it is the double nearest to it that is printed.

    Outside the model: what Express does before a handler runs (the body
    parser, the query parser), failures of the file system, and the text of
    the token file, which is kept as the JSON data it denotes. *)

From Stdlib Require Import List String Ascii ZArith NArith Bool Lia.
From Stdlib Require Import DecimalString Sorted Permutation.
Import ListNotations.

Local Open Scope string_scope.
Local Open Scope list_scope.

Set Warnings "-register-all".

(** ** Byte strings *)

Definition string_of_codes (l : list nat) : string :=
  fold_right (fun n s => String (ascii_of_nat n) s) EmptyString l.

(** The double quote and the line feed, as one-character strings. *)
Definition dquote : string := string_of_codes [34].
Definition newline : string := string_of_codes [10].

Fixpoint rev_string (acc s : string) : string :=
  match s with
  | EmptyString => acc
  | String c r => rev_string (String c acc) r
  end.

Fixpoint strip_prefix (p s : string) : option string :=
  match p, s with
  | EmptyString, _ => Some s
  | String a p', String b s' => if Ascii.eqb a b then strip_prefix p' s' else None
  | String _ _, EmptyString => None
  end.

(** [Array.prototype.join] on strings. *)
Fixpoint join (sep : string) (l : list string) : string :=
  match l with
  | [] => EmptyString
  | [s] => s
  | s :: r => (s ++ sep ++ join sep r)%string
  end.

(** The characters [String.prototype.trim] removes (WhiteSpace and
    LineTerminator of ECMAScript), in UTF-8. *)
Definition white_space : list string :=
  map string_of_codes
    [ [9]; [10]; [11]; [12]; [13]; [32]; [194; 160]; [225; 154; 128];
      [226; 128; 128]; [226; 128; 129]; [226; 128; 130]; [226; 128; 131];
      [226; 128; 132]; [226; 128; 133]; [226; 128; 134]; [226; 128; 135];
      [226; 128; 136]; [226; 128; 137]; [226; 128; 138]; [226; 128; 168];
      [226; 128; 169]; [226; 128; 175]; [226; 129; 159]; [227; 128; 128];
      [239; 187; 191] ].

(** What is left of [s] after one leading character of [chars]. *)
Fixpoint strip_one (chars : list string) (s : string) : option string :=
  match chars with
  | [] => None
  | c :: cs =>
      match strip_prefix c s with
      | Some r => Some r
      | None => strip_one cs s
      end
  end.

Fixpoint strip_all (fuel : nat) (chars : list string) (s : string) : string :=
  match fuel with
  | O => s
  | S n =>
      match strip_one chars s with
      | Some r => strip_all n chars r
      | None => s
      end
  end.

Definition trimStart (s : string) : string :=
  strip_all (String.length s) white_space s.

Definition trimEnd (s : string) : string :=
  let r := rev_string EmptyString s in
  rev_string EmptyString
    (strip_all (String.length r) (map (rev_string EmptyString) white_space) r).

Definition trim (s : string) : string := trimEnd (trimStart s).

(** The default order of [Array.prototype.sort]: by UTF-16 code units. On
    UTF-8 bytes this is the byte order, except that a character outside the
    basic plane (lead byte F0..F4, a surrogate pair in UTF-16) comes before
    U+E000..U+FFFF (lead byte EE or EF). *)
Definition code_unit_rank (c : ascii) : N :=
  let n := N_of_ascii c in
  if ((238 <=? n) && (n <=? 239))%N then (n + 5)%N
  else if ((240 <=? n) && (n <=? 244))%N then (n - 2)%N
  else n.

Fixpoint code_unit_leb (a b : string) : bool :=
  match a, b with
  | EmptyString, _ => true
  | String _ _, EmptyString => false
  | String x a', String y b' =>
      if Ascii.eqb x y then code_unit_leb a' b'
      else (code_unit_rank x <? code_unit_rank y)%N
  end.

Fixpoint insert_sorted (k : string) (l : list string) : list string :=
  match l with
  | [] => [k]
  | x :: r => if code_unit_leb x k then x :: insert_sorted k r else k :: l
  end.

(** [keys.sort()] *)
Definition sort (l : list string) : list string :=
  fold_left (fun acc k => insert_sorted k acc) l [].

(** ** Exceptions *)

Inductive error : Type :=
| TypeError_not_a_function        (* calling a method the value does not have *)
| TypeError_property_of_nullish   (* reading a property of null or undefined *)
| TypeError_to_primitive          (* an object that cannot be turned into a string *)
| TypeError_invalid_argument      (* a library function refuses its argument's type *)
| RangeError_byte_length          (* crypto.timingSafeEqual on unequal lengths *)
| SystemError (code : string)     (* a file-system call fails *)
| Rejected (reason : string).     (* fetch, or response.json(), rejects *)

(** A value, or the exception thrown instead. *)
Definition result (A : Type) : Type := (error + A)%type.

Definition and_then {A B : Type} (r : result A) (k : A -> result B) : result B :=
  match r with
  | inr a => k a
  | inl e => inl e
  end.

Declare Scope handler_scope.
Delimit Scope handler_scope with handler.
Notation "x <~ r ;; k" := (and_then r (fun x => k))
  (at level 61, r at next level, right associativity) : handler_scope.
Local Open Scope handler_scope.

(** [l.map(f)], for an [f] that may throw. *)
Fixpoint map_result {A B : Type} (f : A -> result B) (l : list A) : result (list B) :=
  match l with
  | [] => inr []
  | x :: r => y <~ f x ;; ys <~ map_result f r ;; inr (y :: ys)
  end.

(** ** JSON texts and JavaScript values *)

(** A JSON text, kept as the data it denotes: [JSON.parse] and
    [JSON.stringify] are inverse to each other on these, and the program
    reads a JSON text only through [JSON.parse]. The keys of an object are
    distinct. *)
Inductive json : Type :=
| JNull
| JBool (b : bool)
| JNum (n : Z)
| JStr (s : string)
| JArr (items : list json)
| JObj (props : list (string * json)).

(** The values the handlers compute with. *)
Inductive value : Type :=
| VUndefined
| VNull
| VBool (b : bool)
| VNum (n : Z)
| VStr (s : string)
| VArr (items : list value)
| VObj (props : list (string * value)).

Fixpoint JSON_parse (j : json) : value :=
  match j with
  | JNull => VNull
  | JBool b => VBool b
  | JNum n => VNum n
  | JStr s => VStr s
  | JArr l => VArr (map JSON_parse l)
  | JObj l => VObj (map (fun kv => let '(k, x) := kv in (k, JSON_parse x)) l)
  end.

(** [JSON.stringify]: no text for [undefined]; inside an array [undefined]
    is written [null]; a property whose value is [undefined] is left out. *)
Fixpoint JSON_stringify (v : value) : option json :=
  match v with
  | VUndefined => None
  | VNull => Some JNull
  | VBool b => Some (JBool b)
  | VNum n => Some (JNum n)
  | VStr s => Some (JStr s)
  | VArr l =>
      Some (JArr (map (fun x => match JSON_stringify x with
                                | Some j => j
                                | None => JNull
                                end) l))
  | VObj l =>
      Some (JObj ((fix props (l : list (string * value)) : list (string * json) :=
                     match l with
                     | [] => []
                     | (k, x) :: r =>
                         match JSON_stringify x with
                         | Some j => (k, j) :: props r
                         | None => props r
                         end
                     end) l))
  end.

(** The decimal digits of a natural number. *)
Definition decimal (n : N) : string := NilEmpty.string_of_uint (N.to_uint n).

(** The double nearest to a natural number, ties to even: its value, or
    nothing when the number rounds to Infinity. A double has 53 significant
    bits, and the largest is below two to the 1024. *)
Definition nearest_double (n : N) : option N :=
  (if n <? 2 ^ 53 then Some n
   else
     let e := N.log2 n - 52 in
     let q := N.shiftr n e in
     let r := n - N.shiftl q e in
     let half := N.shiftl 1 (e - 1) in
     let q' := if r <? half then q
               else if half <? r then q + 1
               else if N.even q then q else q + 1 in
     let v := N.shiftl q' e in
     if v <? 2 ^ 1024 then Some v else None)%N.

(** The numbers [s * 10^j], [s] of [k] digits, that are read as the double
    [v], which has [p] digits. *)
Definition read_as (v p k : N) : list (N * N) :=
  (filter (fun sj => let '(s, j) := sj in
                     (10 ^ (k - 1) <=? s) && (s <? 10 ^ k)
                     && match nearest_double (s * 10 ^ j) with
                        | Some v' => v' =? v
                        | None => false
                        end)
     (flat_map (fun j => let s := v / 10 ^ j in [(s, j); (s + 1, j)])
        [p - k; p - k + 1]))%N.

(** How far [s * 10^j] is from [v]. *)
Definition distance (v : N) (sj : N * N) : N :=
  (let c := fst sj * 10 ^ snd sj in if c <? v then v - c else c - v)%N.

(** Of two candidates the one nearer to [v]; of two as near, the even one. *)
Definition nearer (v : N) (a b : N * N) : N * N :=
  (if distance v b <? distance v a then b
   else if distance v a <? distance v b then a
   else if N.even (fst a) then a else b)%N.

(** The fewest digits [s], and the exponent [j], such that [s * 10^j] is
    read as [v]: tried for 1, 2, ... digits. *)
Fixpoint shortest (fuel : nat) (v p k : N) : N * N :=
  match fuel with
  | O => (v, 0%N)
  | S fuel' =>
      match read_as v p k with
      | [] => shortest fuel' v p (k + 1)%N
      | a :: l => fold_left (nearer v) l a
      end
  end.

(** [Number::toString] on a double that is a positive integer: the digits
    and as many zeros as are missing, up to 21 digits in all; beyond, one
    digit, the others after a point, and the exponent. *)
Definition print_double (v : N) : string :=
  let p := N.of_nat (String.length (decimal v)) in
  let '(s, j) := shortest 17 v p 1 in
  let digits := decimal s in
  let n := (N.of_nat (String.length digits) + j)%N in
  if (n <=? 21)%N then digits ++ string_of_list_ascii (repeat "0"%char (N.to_nat j))
  else
    match digits with
    | String d EmptyString => String d ("e+" ++ decimal (n - 1))
    | String d more => String d ("." ++ more ++ "e+" ++ decimal (n - 1))
    | EmptyString => EmptyString
    end.

(** [Number.prototype.toString] on the double nearest to an integer. Below
    two to the 53 every integer is a double, and its digits are the
    shortest that are read as it. *)
Definition Number_toString (n : Z) : string :=
  if (Z.abs n <? 2 ^ 53)%Z then NilEmpty.string_of_int (Z.to_int n)
  else
    ((if (n <? 0)%Z then "-" else "")
     ++ match nearest_double (Z.abs_N n) with
        | Some v => print_double v
        | None => "Infinity"
        end).

Fixpoint lookup {A : Type} (k : string) (l : list (string * A)) : option A :=
  match l with
  | [] => None
  | (k', x) :: r => if (k' =? k)%string then Some x else lookup k r
  end.

(** [String(v)], which is also what a template literal does to [v]. An
    array is joined with commas. A plain object is "[object Object]" by the
    [toString] it inherits; one that has a property of that name of its own
    (data, so not a function) cannot be converted. *)
Fixpoint ToString (v : value) : result string :=
  match v with
  | VUndefined => inr "undefined"
  | VNull => inr "null"
  | VBool true => inr "true"
  | VBool false => inr "false"
  | VNum n => inr (Number_toString n)
  | VStr s => inr s
  | VArr l =>
      strings <~ (fix each (l : list value) : result (list string) :=
                    match l with
                    | [] => inr []
                    | x :: r =>
                        s <~ match x with
                             | VUndefined | VNull => inr EmptyString
                             | _ => ToString x
                             end ;;
                        ss <~ each r ;;
                        inr (s :: ss)
                    end) l ;;
      inr (join "," strings)
  | VObj o =>
      match lookup "toString" o with
      | Some _ => inl TypeError_to_primitive
      | None => inr "[object Object]"
      end
  end.

(** [items.join(sep)] *)
Definition Array_join (sep : string) (items : list value) : result string :=
  strings <~ map_result (fun x => match x with
                                  | VUndefined | VNull => inr EmptyString
                                  | _ => ToString x
                                  end) items ;;
  inr (join sep strings).

(** [!!v] *)
Definition truthy (v : value) : bool :=
  match v with
  | VUndefined | VNull => false
  | VBool b => b
  | VNum n => negb (n =? 0)%Z
  | VStr s => negb (s =? "")%string
  | VArr _ | VObj _ => true
  end.

(** [a || b] *)
Definition or_else (a b : value) : value := if truthy a then a else b.

Definition remove {A : Type} (k : string) (l : list (string * A)) : list (string * A) :=
  filter (fun kv => negb (fst kv =? k)%string) l.

(** [Object.keys(o)] *)
Definition keys {A : Type} (l : list (string * A)) : list string := map fst l.

(** [v?.k] for a property name [k] that is not an index: an own property of
    an object, the length of an array or of a string, and [undefined]
    otherwise. None of the names the handlers read is inherited. *)
Definition get (v : value) (k : string) : value :=
  match v with
  | VObj o => match lookup k o with Some x => x | None => VUndefined end
  | VArr l => if (k =? "length")%string then VNum (Z.of_nat (List.length l)) else VUndefined
  | VStr s => if (k =? "length")%string then VNum (Z.of_nat (String.length s)) else VUndefined
  | _ => VUndefined
  end.

Definition is_nullish (v : value) : bool :=
  match v with VUndefined | VNull => true | _ => false end.

(** ** HMAC-SHA-256 (FIPS 180-4, RFC 2104), on bytes *)

Module SHA256.
Local Open Scope N_scope.

Definition w32 (x : N) : N := x mod 4294967296.
Definition add32 (a b : N) : N := w32 (a + b).
Definition rotr (n x : N) : N := N.lor (N.shiftr x n) (w32 (N.shiftl x (32 - n))).
Definition not32 (x : N) : N := N.lxor x 4294967295.

Definition Ch (x y z : N) : N := N.lxor (N.land x y) (N.land (not32 x) z).
Definition Maj (x y z : N) : N :=
  N.lxor (N.lxor (N.land x y) (N.land x z)) (N.land y z).
Definition Sigma0 (x : N) : N := N.lxor (N.lxor (rotr 2 x) (rotr 13 x)) (rotr 22 x).
Definition Sigma1 (x : N) : N := N.lxor (N.lxor (rotr 6 x) (rotr 11 x)) (rotr 25 x).
Definition sigma0 (x : N) : N := N.lxor (N.lxor (rotr 7 x) (rotr 18 x)) (N.shiftr x 3).
Definition sigma1 (x : N) : N := N.lxor (N.lxor (rotr 17 x) (rotr 19 x)) (N.shiftr x 10).

(** The first 64 primes, 2 to 311. *)
Definition is_prime (p : nat) : bool :=
  forallb (fun d => negb (Nat.eqb (Nat.modulo p d) 0)) (seq 2 (p - 2)).

Definition primes : list N := map N.of_nat (filter is_prime (seq 2 310)).

(** The integer cube root of [n], bit by bit from bit [bits - 1] down. *)
Fixpoint root3 (bits : nat) (n acc : N) : N :=
  match bits with
  | O => acc
  | S b =>
      let t := acc + N.shiftl 1 (N.of_nat b) in
      if t * t * t <=? n then root3 b n t else root3 b n acc
  end.

(** The round constants: the first 32 bits of the fractional parts of the
    cube roots of the first 64 primes. *)
Definition K : list N :=
  Eval vm_compute in map (fun p => w32 (root3 36 (p * N.shiftl 1 96) 0)) primes.

Definition state : Type := N * N * N * N * N * N * N * N.

(** The initial hash value: the first 32 bits of the fractional parts of
    the square roots of the first 8 primes. *)
Definition H0 : state :=
  Eval vm_compute in
    match map (fun p => w32 (N.sqrt (p * N.shiftl 1 64))) (firstn 8 primes) with
    | [a; b; c; d; e; f; g; h] => (a, b, c, d, e, f, g, h)
    | _ => (0, 0, 0, 0, 0, 0, 0, 0)
    end.

(** The message schedule, latest word first: [W t] from the sixteen words
    before it. *)
Definition next_W (ws : list N) : N :=
  add32 (add32 (sigma1 (nth 1 ws 0)) (nth 6 ws 0))
        (add32 (sigma0 (nth 14 ws 0)) (nth 15 ws 0)).

Fixpoint schedule (n : nat) (ws : list N) : list N :=
  match n with
  | O => ws
  | S n' => schedule n' (next_W ws :: ws)
  end.

Definition round (st : state) (kw : N * N) : state :=
  let '(a, b, c, d, e, f, g, h) := st in
  let T1 := add32 (add32 (add32 h (Sigma1 e)) (add32 (Ch e f g) (fst kw))) (snd kw) in
  let T2 := add32 (Sigma0 a) (Maj a b c) in
  (add32 T1 T2, a, b, c, add32 d T1, e, f, g).

Definition add_state (x y : state) : state :=
  let '(a, b, c, d, e, f, g, h) := x in
  let '(a', b', c', d', e', f', g', h') := y in
  (add32 a a', add32 b b', add32 c c', add32 d d',
   add32 e e', add32 f f', add32 g g', add32 h h').

(** One block of sixteen words. *)
Definition compress (st : state) (block : list N) : state :=
  let W := rev (schedule 48 (rev block)) in
  add_state st (fold_left round (combine K W) st).

Fixpoint words_of_bytes (fuel : nat) (l : list N) : list N :=
  match fuel, l with
  | S n, a :: b :: c :: d :: r =>
      (a * 16777216 + b * 65536 + c * 256 + d) :: words_of_bytes n r
  | _, _ => []
  end.

Fixpoint blocks (fuel : nat) (ws : list N) : list (list N) :=
  match fuel, ws with
  | S n, _ :: _ => firstn 16 ws :: blocks n (skipn 16 ws)
  | _, _ => []
  end.

Definition be_bytes (width : nat) (x : N) : list N :=
  map (fun i => N.shiftr x (8 * N.of_nat i) mod 256) (rev (seq 0 width)).

(** The message, a one bit, zeros up to 56 modulo 64, and the length in
    bits on eight bytes. *)
Definition pad (msg : list N) : list N :=
  let len := List.length msg in
  let zeros := Nat.modulo (119 - Nat.modulo len 64) 64 in
  msg ++ 128 :: repeat 0 zeros ++ be_bytes 8 (8 * N.of_nat len).

Definition digest_bytes (st : state) : list N :=
  let '(a, b, c, d, e, f, g, h) := st in
  be_bytes 4 a ++ be_bytes 4 b ++ be_bytes 4 c ++ be_bytes 4 d ++
  be_bytes 4 e ++ be_bytes 4 f ++ be_bytes 4 g ++ be_bytes 4 h.

Definition sha256 (msg : list N) : list N :=
  let p := pad msg in
  let ws := words_of_bytes (List.length p) p in
  digest_bytes (fold_left compress (blocks (List.length ws) ws) H0).

Definition hmac (key msg : list N) : list N :=
  let k0 := if (64 <? List.length key)%nat then sha256 key else key in
  let k := k0 ++ repeat 0 (64 - List.length k0) in
  sha256 (map (N.lxor 0x5c) k ++ sha256 (map (N.lxor 0x36) k ++ msg)).

Definition bytes_of_string (s : string) : list N :=
  map N_of_ascii (list_ascii_of_string s).

Definition hex_digit (n : N) : ascii :=
  match String.get (N.to_nat n) "0123456789abcdef" with
  | Some c => c
  | None => "0"%char
  end.

Fixpoint hex (l : list N) : string :=
  match l with
  | [] => EmptyString
  | b :: r => String (hex_digit (b / 16)) (String (hex_digit (b mod 16)) (hex r))
  end.

End SHA256.

(** [crypto.createHmac("sha256", secret).update(message).digest("hex")] for
    a string [secret]. *)
Definition hmac_sha256_hex (secret message : string) : string :=
  SHA256.hex (SHA256.hmac (SHA256.bytes_of_string secret)
                          (SHA256.bytes_of_string message)).

(** ** The text of a JSON value *)

Definition hex4 (n : N) : string :=
  String (SHA256.hex_digit ((n / 4096) mod 16))
    (String (SHA256.hex_digit ((n / 256) mod 16))
       (String (SHA256.hex_digit ((n / 16) mod 16))
          (String (SHA256.hex_digit (n mod 16)) EmptyString))).

(** QuoteJSONString, without the quotes around it. *)
Fixpoint escape (s : string) : string :=
  match s with
  | EmptyString => EmptyString
  | String c r =>
      let n := N_of_ascii c in
      ((if (n =? 34)%N then "\" ++ dquote
        else if (n =? 92)%N then "\\"
        else if (n =? 8)%N then "\b"
        else if (n =? 9)%N then "\t"
        else if (n =? 10)%N then "\n"
        else if (n =? 12)%N then "\f"
        else if (n =? 13)%N then "\r"
        else if (n <? 32)%N then "\u" ++ hex4 n
        else String c EmptyString) ++ escape r)%string
  end.

Definition quote (s : string) : string := (dquote ++ escape s ++ dquote)%string.

(** The characters [JSON.stringify(v)] returns (no indentation). A number
    that is not finite is written [null]. *)
Fixpoint JSON_text (j : json) : string :=
  match j with
  | JNull => "null"
  | JBool true => "true"
  | JBool false => "false"
  | JNum n =>
      match nearest_double (Z.abs_N n) with
      | Some _ => Number_toString n
      | None => "null"
      end
  | JStr s => quote s
  | JArr l => ("[" ++ join "," (map JSON_text l) ++ "]")%string
  | JObj l =>
      ("{" ++ join "," (map (fun kv => let '(k, x) := kv in
                                       (quote k ++ ":" ++ JSON_text x)%string) l)
           ++ "}")%string
  end.

(** ** Exceptions, the outside world, and the handlers' monad *)

(** [v.k]: a TypeError on [null] and [undefined]. *)
Definition prop (v : value) (k : string) : result value :=
  if is_nullish v then inl TypeError_property_of_nullish else inr (get v k).

(** [v[0]]. Of a string it is the first code unit; the model keeps the
    first byte. *)
Definition first (v : value) : result value :=
  match v with
  | VUndefined | VNull => inl TypeError_property_of_nullish
  | VObj o => inr match lookup "0" o with Some x => x | None => VUndefined end
  | VArr (x :: _) => inr x
  | VStr (String c _) => inr (VStr (String c EmptyString))
  | _ => inr VUndefined
  end.

(** [v.trim()] *)
Definition trim_method (v : value) : result string :=
  match v with
  | VStr s => inr (trim s)
  | VUndefined | VNull => inl TypeError_property_of_nullish
  | _ => inl TypeError_not_a_function
  end.

(** [a === b] for a string [b]. *)
Definition strict_eq_string (a : value) (b : string) : bool :=
  match a with VStr s => (s =? b)%string | _ => false end.

(** The characters [encodeURIComponent] leaves as they are: the letters,
    the digits, and - _ . ! ~ * ' ( ). *)
Definition unreserved (c : ascii) : bool :=
  let n := N_of_ascii c in
  (((65 <=? n) && (n <=? 90)) || ((97 <=? n) && (n <=? 122))
   || ((48 <=? n) && (n <=? 57))
   || existsb (N.eqb n) [45; 95; 46; 33; 126; 42; 39; 40; 41])%N.

Definition HEX_digit (n : N) : ascii :=
  match String.get (N.to_nat n) "0123456789ABCDEF" with
  | Some c => c
  | None => "0"%char
  end.

(** [encodeURIComponent(s)]: every other character is written as the bytes
    of its UTF-8 encoding, each as a percent sign and two capital
    hexadecimal digits; the strings here are UTF-8 already. (A lone
    surrogate, on which the function throws, has no UTF-8 encoding.) *)
Fixpoint encodeURIComponent (s : string) : string :=
  match s with
  | EmptyString => EmptyString
  | String c r =>
      if unreserved c then String c (encodeURIComponent r)
      else
        let n := N_of_ascii c in
        String "%" (String (HEX_digit (n / 16))
                      (String (HEX_digit (n mod 16)) (encodeURIComponent r)))
  end.

Record fetch_request : Type := {
  url : string;
  method : string;
  headers : list (string * string);
  body : option json                (* the text [JSON.stringify] returned *)
}.

(** The response object of [fetch]: its [ok] flag and what [json()] gives. *)
Record fetch_response : Type := {
  ok : bool;
  json_body : result json
}.

(** What a run takes from outside the program. *)
Record world : Type := {
  network : fetch_request -> result fetch_response;   (* the platform's answer *)
  clock : string;                                     (* new Date().toISOString() *)
  error_text : error -> string;                       (* String(e) *)
  Buffer_from_object : value -> result string         (* Buffer.from(v, "utf8"), v not a string *)
}.

(** The two paths the program touches: the directory [.data] and the file
    [token.json] in it. The file is written by [saveToken] only. *)
Inductive disk : Type :=
| NoDir
| EmptyDir
| TokenFile (text : json).

Inductive path : Type := DATA_DIR | TOKEN_PATH.

Inductive event : Type :=
| Fetched (r : fetch_request)
| MadeDir
| Wrote (text : json).

Record machine : Type := { files : disk; trace : list event }.

Definition M (A : Type) : Type := machine -> result A * machine.

Definition ret {A : Type} (a : A) : M A := fun m => (inr a, m).
Definition lift {A : Type} (r : result A) : M A := fun m => (r, m).

Definition bind {A B : Type} (c : M A) (k : A -> M B) : M B :=
  fun m =>
    match c m with
    | (inr a, m') => k a m'
    | (inl e, m') => (inl e, m')
    end.

(** [try { c } catch (e) { h e }] *)
Definition try_catch {A : Type} (c : M A) (h : error -> M A) : M A :=
  fun m =>
    match c m with
    | (inr a, m') => (inr a, m')
    | (inl e, m') => h e m'
    end.

Notation "x <- c ;; k" := (bind c (fun x => k))
  (at level 61, c at next level, right associativity) : handler_scope.
Notation "c ;;; k" := (bind c (fun _ => k))
  (at level 61, right associativity) : handler_scope.

(** A call the outside can see is put on the trace. *)
Definition emit (ev : event) : M unit :=
  fun m => (inr tt, {| files := files m; trace := trace m ++ [ev] |}).

(** [await fetch(url, options)] *)
Definition fetch (w : world) (r : fetch_request) : M fetch_response :=
  emit (Fetched r) ;;; lift (network w r).

(** [await response.json()] *)
Definition response_json (resp : fetch_response) : M value :=
  j <- lift (json_body resp) ;; ret (JSON_parse j).

Definition existsSync (p : path) : M bool :=
  fun m =>
    (inr match p, files m with
         | DATA_DIR, NoDir => false
         | DATA_DIR, _ => true
         | TOKEN_PATH, TokenFile _ => true
         | TOKEN_PATH, _ => false
         end, m).

Definition mkdirSync (p : path) : M unit :=
  fun m =>
    match p, files m with
    | DATA_DIR, NoDir => emit MadeDir {| files := EmptyDir; trace := trace m |}
    | DATA_DIR, _ => (inl (SystemError "EEXIST"), m)
    | TOKEN_PATH, NoDir => (inl (SystemError "ENOENT"), m)
    | TOKEN_PATH, _ => (inl (SystemError "EEXIST"), m)
    end.

Definition writeFileSync (p : path) (data : option json) : M unit :=
  fun m =>
    match data, p, files m with
    | None, _, _ => (inl TypeError_invalid_argument, m)
    | Some _, DATA_DIR, NoDir => (inl (SystemError "ENOENT"), m)
    | Some _, DATA_DIR, _ => (inl (SystemError "EISDIR"), m)
    | Some _, TOKEN_PATH, NoDir => (inl (SystemError "ENOENT"), m)
    | Some text, TOKEN_PATH, _ =>
        emit (Wrote text) {| files := TokenFile text; trace := trace m |}
    end.

Definition readFileSync (p : path) : M json :=
  fun m =>
    match p, files m with
    | TOKEN_PATH, TokenFile text => (inr text, m)
    | DATA_DIR, NoDir => (inl (SystemError "ENOENT"), m)
    | DATA_DIR, _ => (inl (SystemError "EISDIR"), m)
    | TOKEN_PATH, _ => (inl (SystemError "ENOENT"), m)
    end.

(** [crypto.createHmac("sha256", secret).update(message).digest("hex")] *)
Definition createHmac_digest (secret : value) (message : string) : result string :=
  match secret with
  | VStr key => inr (hmac_sha256_hex key message)
  | _ => inl TypeError_invalid_argument
  end.

(** [Buffer.from(v, "utf8")] *)
Definition Buffer_from (w : world) (v : value) : result string :=
  match v with
  | VStr s => inr s
  | _ => Buffer_from_object w v
  end.

Definition timingSafeEqual (a b : string) : result bool :=
  if (String.length a =? String.length b)%nat then inr (a =? b)%string
  else inl RangeError_byte_length.

Definition process_env : Type := list (string * string).

(** [process.env.NAME] *)
Definition getenv (env : process_env) (name : string) : value :=
  match lookup name env with
  | Some s => VStr s
  | None => VUndefined
  end.

(** An incoming request: [req.query] as the query parser built it (strings,
    arrays and objects of them) and the JSON body, if one was sent. *)
Record request : Type := {
  query : list (string * value);
  json_sent : option json
}.

(** [req.body], as [express.json()] leaves it. *)
Definition req_body (req : request) : value :=
  match json_sent req with
  | Some j => JSON_parse j
  | None => VUndefined
  end.

Inductive response : Type :=
| send (status : Z) (text : string)        (* res.status(status).send(text) *)
| send_json (status : Z) (obj : value).    (* res.status(status).json(obj) *)

Definition status_of (r : response) : Z :=
  match r with send s _ | send_json s _ => s end.

(** What [app.get("/auth")] does with [res]: the cookies it sets with
    [res.cookie(name, value, options)], and then a response or
    [res.redirect(location)], unless an exception escapes the handler, which
    has no [try]. *)
Inductive auth_reply : Type :=
| replied (r : response)
| redirected (location : string).

Record auth_outcome : Type := {
  cookies : list (string * string);
  finished : result auth_reply
}.

(** The mutation both variants post. *)
Definition mutation : string :=
"
      mutation draftOrderCreate($input: DraftOrderInput!) {
        draftOrderCreate(input: $input) {
          draftOrder { id name }
          userErrors { field message }
        }
      }
    ".

(** What a handler did: its response (or the exception that escaped it),
    the disk it leaves, and the calls it made, in order. *)
Record outcome : Type := {
  responded : result response;
  disk_after : disk;
  events : list event
}.

Definition run (handler : M response) (d : disk) : outcome :=
  let '(r, m) := handler {| files := d; trace := [] |} in
  {| responded := r; disk_after := files m; events := trace m |}.

Definition requests (evs : list event) : list fetch_request :=
  flat_map (fun ev => match ev with Fetched r => [r] | _ => [] end) evs.

Definition writes (evs : list event) : list json :=
  flat_map (fun ev => match ev with Wrote t => [t] | _ => [] end) evs.

(** ** [server.js]: the OAuth variant *)

Module Server.

Section Config.
Variable env : process_env.

Definition SHOP : value := getenv env "SHOP".
Definition API_KEY : value := getenv env "SHOPIFY_API_KEY".
Definition API_SECRET : value := getenv env "SHOPIFY_API_SECRET".
Definition SCOPES : value :=
  or_else (getenv env "SCOPES") (VStr "write_draft_orders,read_customers").
Definition HOST : value := getenv env "HOST".
Definition API_VER : value := or_else (getenv env "API_VER") (VStr "2025-04").

End Config.

(** The indentation [JSON.stringify(tokenObj, null, 2)] asks for does not
    change what the text denotes. *)
Definition saveToken (tokenObj : value) : M unit :=
  dir <- existsSync DATA_DIR ;;
  (if negb dir then mkdirSync DATA_DIR else ret tt) ;;;
  writeFileSync TOKEN_PATH (JSON_stringify tokenObj).

Definition loadToken : M value :=
  file <- existsSync TOKEN_PATH ;;
  if negb file then ret VNull
  else text <- readFileSync TOKEN_PATH ;; ret (JSON_parse text).

(** [Object.entries(params)] gives the properties in the order they were
    written (none of the names used is an array index). *)
Definition buildQueryString (params : list (string * value)) : result string :=
  pairs <~ map_result
             (fun kv =>
                let '(k, v) := kv in
                text <~ ToString v ;;
                inr (encodeURIComponent k ++ "=" ++ encodeURIComponent text)%string)
             (filter (fun kv =>
                        match snd kv with
                        | VUndefined | VNull => false
                        | VStr s => negb (s =? "")%string
                        | _ => true
                        end) params) ;;
  inr (join "&" pairs).

(** The [message] of [verifyHmac]: the parameters but [hmac], sorted by
    name, each written name=value, joined by "&". *)
Definition hmac_message (rest : list (string * value)) : result string :=
  pairs <~ map_result
             (fun key =>
                text <~ match get (VObj rest) key with
                        | VArr items => Array_join "," items
                        | v => ToString v
                        end ;;
                inr (key ++ "=" ++ text)%string)
             (sort (keys rest)) ;;
  inr (join "&" pairs).

(** Verify Shopify HMAC for OAuth callback *)
Definition verifyHmac (w : world) (query : list (string * value)) (secret : value)
  : result bool :=
  let hmac := get (VObj query) "hmac" in
  let rest := remove "hmac" query in
  if negb (truthy hmac) then inr false
  else
    message <~ hmac_message rest ;;
    digest <~ createHmac_digest secret message ;;
    given <~ Buffer_from w hmac ;;
    timingSafeEqual digest given.

(** (Optional) Verify App Proxy signature *)
Definition verifyAppProxy (req : request) (secret : value) : result bool :=
  let signature := get (VObj (query req)) "signature" in
  let q := remove "signature" (query req) in
  if negb (truthy signature) then inr false
  else
    pairs <~ map_result
               (fun k => text <~ ToString (get (VObj q) k) ;; inr (k ++ "=" ++ text)%string)
               (sort (keys q)) ;;
    digest <~ createHmac_digest secret (join EmptyString pairs) ;;
    inr (strict_eq_string signature digest).

(** [app.get("/")] *)
Definition health : response := send 200 "OK".

(** [app.get("/auth")], start of OAuth. [random] is the buffer
    [crypto.randomBytes(16)] returns. *)
Definition auth (env : process_env) (req : request) (random : string) : auth_outcome :=
  if negb (truthy (SHOP env)) || negb (truthy (API_KEY env)) || negb (truthy (HOST env))
  then {| cookies := [];
          finished :=
            inr (replied (send 500 "Missing SHOP / SHOPIFY_API_KEY / HOST env vars")) |}
  else
    let shop := or_else (get (VObj (query req)) "shop") (SHOP env) in
    let state := SHA256.hex (SHA256.bytes_of_string random) in
    {| cookies := [("oauth_state", state)];
       finished :=
         host <~ ToString (HOST env) ;;
         let redirectUri := (host ++ "/auth/callback")%string in
         shop <~ ToString shop ;;
         qs <~ buildQueryString [ ("client_id", API_KEY env);
                                  ("scope", SCOPES env);
                                  ("redirect_uri", VStr redirectUri);
                                  ("state", VStr state) ] ;;
         inr (redirected ("https://" ++ shop ++ "/admin/oauth/authorize?" ++ qs)%string) |}.

Definition token_request (env : process_env) (shop code : value)
  : result fetch_request :=
  host <~ ToString shop ;;
  inr {| url := ("https://" ++ host ++ "/admin/oauth/access_token")%string;
         method := "POST";
         headers := [("Content-Type", "application/json")];
         body := JSON_stringify
                   (VObj [("client_id", API_KEY env);
                          ("client_secret", API_SECRET env);
                          ("code", code)]) |}.

Definition installed : string :=
  "✅ App installed and token saved. You can close this tab.".

(** The [try] block of [app.get("/auth/callback")]. *)
Definition auth_callback_try (w : world) (env : process_env) (req : request)
  : M response :=
  if negb (truthy (API_SECRET env)) || negb (truthy (API_KEY env))
     || negb (truthy (HOST env)) || negb (truthy (SHOP env))
  then ret (send 500 "Missing env vars for OAuth")
  else
    verified <- lift (verifyHmac w (query req) (API_SECRET env)) ;;
    if negb verified then ret (send 400 "HMAC verification failed")
    else
      let shop := get (VObj (query req)) "shop" in
      let code := get (VObj (query req)) "code" in
      if negb (truthy shop) || negb (truthy code)
      then ret (send 400 "Missing shop or code")
      else
        request <- lift (token_request env shop code) ;;
        tokenResp <- fetch w request ;;
        tokenJson <- response_json tokenResp ;;
        if negb (ok tokenResp)
        then ret (send 400 ("Token exchange failed: " ++
                            match JSON_stringify tokenJson with
                            | Some j => JSON_text j
                            | None => "undefined"
                            end))
        else
          access_token <- lift (prop tokenJson "access_token") ;;
          scope <- lift (prop tokenJson "scope") ;;
          saveToken (VObj [("shop", shop);
                           ("access_token", access_token);
                           ("scope", scope);
                           ("created_at", VStr (clock w))]) ;;;
          ret (send 200 installed).

(** [app.get("/auth/callback")] *)
Definition auth_callback (w : world) (env : process_env) (req : request) : M response :=
  try_catch (auth_callback_try w env req)
    (fun e => ret (send 500 ("Server error: " ++ error_text w e))).

(** The lines of the draft order's note. *)
Definition noteLines (phone product customer : value) : result (list string) :=
  let isLoggedIn := truthy (get customer "logged_in") in
  title <~ prop product "title" ;;
  title <~ ToString title ;;
  link <~ prop product "url" ;;
  link <~ ToString link ;;
  phone <~ ToString phone ;;
  who <~ (if isLoggedIn then
            first_name <~ prop customer "first_name" ;;
            first_name <~ trim_method (or_else first_name (VStr EmptyString)) ;;
            last_name <~ prop customer "last_name" ;;
            last_name <~ trim_method (or_else last_name (VStr EmptyString)) ;;
            email <~ prop customer "email" ;;
            email <~ ToString (or_else email (VStr EmptyString)) ;;
            inr ("Customer: " ++ first_name ++ " " ++ last_name ++ " | " ++ email)%string
          else inr "Customer: Guest (not logged in)") ;;
  inr [ "Customization request";
        ("Product: " ++ title)%string;
        ("Link: " ++ link)%string;
        ("Phone: " ++ phone)%string;
        who ].

Definition draftInput (phone product customer : value) : result value :=
  let isLoggedIn := truthy (get customer "logged_in") in
  lines <~ noteLines phone product customer ;;
  item_title <~ prop product "title" ;;
  item_title <~ ToString item_title ;;
  title <~ prop product "title" ;;
  link <~ prop product "url" ;;
  let input :=
    [ ("tags", VArr [VStr "Customization request"]);
      ("note", VStr (join newline lines));
      ("lineItems",
       VArr [VObj [("title", VStr ("Customization request - " ++ item_title));
                   ("quantity", VNum 1);
                   ("originalUnitPrice", VStr "0.00");
                   ("customAttributes",
                    VArr [VObj [("key", VStr "Type");
                                ("value", VStr "Customization request")];
                          VObj [("key", VStr "Product"); ("value", title)];
                          VObj [("key", VStr "Product URL"); ("value", link)];
                          VObj [("key", VStr "Phone"); ("value", phone)]])]]) ] in
  if isLoggedIn && truthy (get customer "email")
  then email <~ prop customer "email" ;; inr (VObj (input ++ [("email", email)]))
  else inr (VObj input).

(** The call for a draft order: the URL is put together first; the value
    of the token header is turned into a string when the call is set up. *)
Definition graphql_request (env : process_env) (shop access_token input : value)
  : result fetch_request :=
  host <~ ToString shop ;;
  version <~ ToString (API_VER env) ;;
  token <~ ToString access_token ;;
  inr {| url := ("https://" ++ host ++ "/admin/api/" ++ version ++ "/graphql.json")%string;
         method := "POST";
         headers := [("Content-Type", "application/json");
                     ("X-Shopify-Access-Token", token)];
         body := JSON_stringify
                   (VObj [("query", VStr mutation);
                          ("variables", VObj [("input", input)])]) |}.

(** What the handler does once the signature gate is behind it. *)
Definition submit (w : world) (env : process_env) (req : request) : M response :=
  tok <- loadToken ;;
  if negb (truthy (get tok "access_token"))
  then ret (send_json 401
              (VObj [("error", VStr "App not installed / token missing. Visit /auth once.")]))
  else
    let body := or_else (req_body req) (VObj []) in
    let phone := get body "phone" in
    let product := get body "product" in
    let customer := get body "customer" in
    if negb (truthy phone) || negb (truthy (get product "title"))
       || negb (truthy (get product "url"))
    then ret (send_json 400 (VObj [("error", VStr "Missing phone or product data")]))
    else
      input <- lift (draftInput phone product customer) ;;
      shop <- lift (prop tok "shop") ;;
      access_token <- lift (prop tok "access_token") ;;
      request <- lift (graphql_request env shop access_token input) ;;
      resp <- fetch w request ;;
      json <- response_json resp ;;
      let result := get (get json "data") "draftOrderCreate" in
      if truthy (get (get result "userErrors") "length")
      then
        userErrors <- lift (prop result "userErrors") ;;
        error0 <- lift (first userErrors) ;;
        message <- lift (prop error0 "message") ;;
        raw <- lift (prop result "userErrors") ;;
        ret (send_json 400 (VObj [("error", message); ("raw", raw)]))
      else
        ret (send_json 200
               (VObj [("ok", VBool true);
                      ("draft_name", get (get result "draftOrder") "name")])).

(** The [try] block of [app.post("/proxy/customization-request")]. *)
Definition customization_request_try (w : world) (env : process_env) (req : request)
  : M response :=
  if strict_eq_string (getenv env "VERIFY_PROXY") "true"
  then
    ok <- lift (verifyAppProxy req (API_SECRET env)) ;;
    if negb ok
    then ret (send_json 401 (VObj [("error", VStr "Invalid proxy signature")]))
    else submit w env req
  else submit w env req.

(** [app.post("/proxy/customization-request")] *)
Definition customization_request (w : world) (env : process_env) (req : request)
  : M response :=
  try_catch (customization_request_try w env req)
    (fun e => ret (send_json 500 (VObj [("error", VStr "Server error");
                                        ("details", VStr (error_text w e))]))).

End Server.

(** ** The static-token variant *)

Module Static.

Section Config.
Variable env : process_env.

Definition SHOP : value := getenv env "SHOP".
Definition ADMIN_TOKEN : value := getenv env "ADMIN_TOKEN".
Definition API_VER : value := VStr "2025-04".

End Config.

Definition noteLines (phone product customer : value) : result (list string) :=
  let isLoggedIn := truthy (get customer "logged_in") in
  title <~ prop product "title" ;;
  title <~ ToString title ;;
  link <~ prop product "url" ;;
  link <~ ToString link ;;
  phone <~ ToString phone ;;
  who <~ (if isLoggedIn then
            first_name <~ prop customer "first_name" ;;
            first_name <~ trim_method (or_else first_name (VStr EmptyString)) ;;
            last_name <~ prop customer "last_name" ;;
            last_name <~ trim_method (or_else last_name (VStr EmptyString)) ;;
            email <~ prop customer "email" ;;
            email <~ ToString (or_else email (VStr EmptyString)) ;;
            inr ("Customer: " ++ first_name ++ " " ++ last_name ++ " | " ++ email)%string
          else inr "Customer: Guest (not logged in)") ;;
  inr [ "Customization request";
        ("Product: " ++ title)%string;
        ("Link: " ++ link)%string;
        ("Phone: " ++ phone)%string;
        who ].

Definition draftInput (phone product customer : value) : result value :=
  let isLoggedIn := truthy (get customer "logged_in") in
  lines <~ noteLines phone product customer ;;
  item_title <~ prop product "title" ;;
  item_title <~ ToString item_title ;;
  title <~ prop product "title" ;;
  link <~ prop product "url" ;;
  let input :=
    [ ("tags", VArr [VStr "Customization request"]);
      ("note", VStr (join newline lines));
      ("lineItems",
       VArr [VObj [("title", VStr ("Customization request - " ++ item_title));
                   ("quantity", VNum 1);
                   ("originalUnitPrice", VStr "0.00");
                   ("customAttributes",
                    VArr [VObj [("key", VStr "Type");
                                ("value", VStr "Customization request")];
                          VObj [("key", VStr "Product"); ("value", title)];
                          VObj [("key", VStr "Product URL"); ("value", link)];
                          VObj [("key", VStr "Phone"); ("value", phone)]])]]) ] in
  if isLoggedIn && truthy (get customer "email")
  then email <~ prop customer "email" ;; inr (VObj (input ++ [("email", email)]))
  else inr (VObj input).

Definition graphql_request (env : process_env) (input : value) : result fetch_request :=
  host <~ ToString (SHOP env) ;;
  version <~ ToString API_VER ;;
  token <~ ToString (ADMIN_TOKEN env) ;;
  inr {| url := ("https://" ++ host ++ "/admin/api/" ++ version ++ "/graphql.json")%string;
         method := "POST";
         headers := [("Content-Type", "application/json");
                     ("X-Shopify-Access-Token", token)];
         body := JSON_stringify
                   (VObj [("query", VStr mutation);
                          ("variables", VObj [("input", input)])]) |}.

(** The [try] block of [app.post("/proxy/customization-request")]. *)
Definition customization_request_try (w : world) (env : process_env) (req : request)
  : M response :=
  if negb (truthy (SHOP env)) || negb (truthy (ADMIN_TOKEN env))
  then ret (send_json 500 (VObj [("error", VStr "Missing SHOP or ADMIN_TOKEN env vars")]))
  else
    let body := or_else (req_body req) (VObj []) in
    let phone := get body "phone" in
    let product := get body "product" in
    let customer := get body "customer" in
    if negb (truthy phone) || negb (truthy (get product "title"))
       || negb (truthy (get product "url"))
    then ret (send_json 400 (VObj [("error", VStr "Missing phone or product data")]))
    else
      input <- lift (draftInput phone product customer) ;;
      request <- lift (graphql_request env input) ;;
      resp <- fetch w request ;;
      json <- response_json resp ;;
      let result := get (get json "data") "draftOrderCreate" in
      if truthy (get (get result "userErrors") "length")
      then
        userErrors <- lift (prop result "userErrors") ;;
        error0 <- lift (first userErrors) ;;
        message <- lift (prop error0 "message") ;;
        ret (send_json 400 (VObj [("error", message)]))
      else
        ret (send_json 200
               (VObj [("ok", VBool true);
                      ("draft_name", get (get result "draftOrder") "name")])).

(** [app.post("/proxy/customization-request")] *)
Definition customization_request (w : world) (env : process_env) (req : request)
  : M response :=
  try_catch (customization_request_try w env req)
    (fun e => ret (send_json 500 (VObj [("error", VStr "Server error");
                                        ("details", VStr (error_text w e))]))).

End Static.

(** * The vocabulary of the statements *)

(** ** Runs *)

Definition fresh (d : disk) : machine := {| files := d; trace := [] |}.

Definition logged (m : machine) (ev : event) : machine :=
  {| files := files m; trace := trace m ++ [ev] |}.

(** What [loadToken] reads from a disk. *)
Definition stored (d : disk) : value :=
  match d with
  | TokenFile text => JSON_parse text
  | NoDir | EmptyDir => VNull
  end.

(** ** Responses *)

Definition invalid_signature : response :=
  send_json 401 (VObj [("error", VStr "Invalid proxy signature")]).

Definition token_missing : response :=
  send_json 401
    (VObj [("error", VStr "App not installed / token missing. Visit /auth once.")]).

Definition missing_data : response :=
  send_json 400 (VObj [("error", VStr "Missing phone or product data")]).

(** The response of the [catch] of both submission handlers. *)
Definition server_error (w : world) (e : error) : response :=
  send_json 500 (VObj [("error", VStr "Server error"); ("details", VStr (error_text w e))]).

(** The response of the [catch] of the callback. *)
Definition callback_error (w : world) (e : error) : response :=
  send 500 ("Server error: " ++ error_text w e).

Definition created (json : value) : response :=
  send_json 200
    (VObj [("ok", VBool true);
           ("draft_name",
            get (get (get (get json "data") "draftOrderCreate") "draftOrder") "name")]).

Definition is_error (r : response) : Prop :=
  exists body, r = send_json 400 body \/ r = send_json 500 body.

(** A handler's run, its [catch] applied. *)
Definition caught (w : world) (p : result response * machine) : outcome :=
  {| responded := inr match fst p with
                      | inr r => r
                      | inl e => server_error w e
                      end;
     disk_after := files (snd p);
     events := trace (snd p) |}.

(** ** The submission path *)

(** The signature gate lets the request through: it is switched off, or the
    signature verifies. *)
Definition gate_passes (env : process_env) (req : request) : Prop :=
  strict_eq_string (getenv env "VERIFY_PROXY") "true" = false \/
  Server.verifyAppProxy req (Server.API_SECRET env) = inr true.

(** SHOP and ADMIN_TOKEN are set, for the static-token variant. *)
Definition configured (env : process_env) : bool :=
  truthy (Static.SHOP env) && truthy (Static.ADMIN_TOKEN env).

(** [req.body || {}] *)
Definition submitted (req : request) : value := or_else (req_body req) (VObj []).

(** The body has a phone, a product title and a product URL. *)
Definition complete (body : value) : bool :=
  truthy (get body "phone") && truthy (get (get body "product") "title")
  && truthy (get (get body "product") "url").

(** The draft order's input for the request's body, if it can be built. *)
Definition input_of (req : request) : result value :=
  Server.draftInput (get (submitted req) "phone") (get (submitted req) "product")
    (get (submitted req) "customer").

(** The call [server.js] sets up for [input], with the token on disk. *)
Definition server_call (env : process_env) (d : disk) (input : value)
  : result fetch_request :=
  Server.graphql_request env (get (stored d) "shop") (get (stored d) "access_token") input.

(** The handler's answer to the platform's parsed response, in [server.js]. *)
Definition server_reply (json : value) : result response :=
  let result := get (get json "data") "draftOrderCreate" in
  if truthy (get (get result "userErrors") "length")
  then
    error0 <~ first (get result "userErrors") ;;
    message <~ prop error0 "message" ;;
    inr (send_json 400 (VObj [("error", message); ("raw", get result "userErrors")]))
  else
    inr (send_json 200 (VObj [("ok", VBool true);
                              ("draft_name", get (get result "draftOrder") "name")])).

(** The same, in the static-token variant. *)
Definition static_reply (json : value) : result response :=
  let result := get (get json "data") "draftOrderCreate" in
  if truthy (get (get result "userErrors") "length")
  then
    error0 <~ first (get result "userErrors") ;;
    message <~ prop error0 "message" ;;
    inr (send_json 400 (VObj [("error", message)]))
  else
    inr (send_json 200 (VObj [("ok", VBool true);
                              ("draft_name", get (get result "draftOrder") "name")])).

(** The response once the call has been made: the platform's answer, read
    as JSON, goes through [reply]; an exception on the way is caught. *)
Definition settle (w : world) (reply : value -> result response)
  (answer : result fetch_response) : response :=
  match answer with
  | inl e => server_error w e
  | inr resp =>
      match json_body resp with
      | inl e => server_error w e
      | inr j =>
          match reply (JSON_parse j) with
          | inl e => server_error w e
          | inr r => r
          end
      end
  end.

(** The response has no user errors: [result?.userErrors?.length] is falsy. *)
Definition no_user_errors (json : value) : bool :=
  negb (truthy (get (get (get (get json "data") "draftOrderCreate") "userErrors") "length")).

(** The call came to nothing: it was rejected, or its answer was not JSON,
    or the answer has user errors. *)
Definition failed (w : world) (c : fetch_request) : Prop :=
  match network w c with
  | inl _ => True
  | inr resp =>
      match json_body resp with
      | inl _ => True
      | inr j => no_user_errors (JSON_parse j) = false
      end
  end.

(** ** What is sent for a body of strings *)

(** A string, or nothing: what [v || ""] makes a string of. *)
Definition text_or_absent (v : value) : bool :=
  match v with
  | VStr _ => true
  | _ => negb (truthy v)
  end.

(** The customer is a guest, or their names and email are strings (or
    absent). *)
Definition customer_ok (customer : value) : bool :=
  negb (truthy (get customer "logged_in"))
  || (text_or_absent (get customer "first_name")
      && text_or_absent (get customer "last_name")
      && text_or_absent (get customer "email")).

(** The POST that carries [input] to the GraphQL endpoint of [shop]. *)
Definition draft_order_call (shop version token : string) (input : value) : fetch_request :=
  {| url := ("https://" ++ shop ++ "/admin/api/" ++ version ++ "/graphql.json")%string;
     method := "POST";
     headers := [("Content-Type", "application/json");
                 ("X-Shopify-Access-Token", token)];
     body := JSON_stringify (VObj [("query", VStr mutation);
                                   ("variables", VObj [("input", input)])]) |}.

(** [API_VER] of [server.js], a string. *)
Definition api_version (env : process_env) : string :=
  match Server.API_VER env with
  | VStr s => s
  | _ => "2025-04"
  end.

(** ** The callback *)

(** [API_SECRET], [API_KEY], [HOST] and [SHOP] are all set. *)
Definition env_ready (env : process_env) : bool :=
  truthy (Server.API_SECRET env) && truthy (Server.API_KEY env)
  && truthy (Server.HOST env) && truthy (Server.SHOP env).

(** Every parameter is a string. *)
Definition all_strings (q : list (string * value)) : Prop :=
  Forall (fun kv => exists s, snd kv = VStr s) q.

(** The call that exchanges the code, if it can be set up. *)
Definition exchange (env : process_env) (req : request) : result fetch_request :=
  Server.token_request env (get (VObj (query req)) "shop") (get (VObj (query req)) "code").

(** The object the callback saves for the exchange's answer [tokenJson]. *)
Definition token_object (w : world) (req : request) (tokenJson : value) : value :=
  VObj [ ("shop", get (VObj (query req)) "shop");
         ("access_token", get tokenJson "access_token");
         ("scope", get tokenJson "scope");
         ("created_at", VStr (clock w)) ].

(** The text of an object ([JSON.stringify] of an object is a text). *)
Definition text_of (v : value) : json :=
  match JSON_stringify v with
  | Some text => text
  | None => JNull
  end.

(** The run of the callback once the call [c] has been answered by [resp]. *)
Definition after_exchange (w : world) (req : request) (d : disk)
  (c : fetch_request) (resp : fetch_response) : outcome :=
  match json_body resp with
  | inl e => {| responded := inr (callback_error w e); disk_after := d;
                events := [Fetched c] |}
  | inr j =>
      if negb (ok resp)
      then {| responded := inr (send 400 ("Token exchange failed: " ++ JSON_text j));
              disk_after := d; events := [Fetched c] |}
      else if is_nullish (JSON_parse j)
      then {| responded := inr (callback_error w TypeError_property_of_nullish);
              disk_after := d; events := [Fetched c] |}
      else
        let text := text_of (token_object w req (JSON_parse j)) in
        {| responded := inr (send 200 Server.installed);
           disk_after := TokenFile text;
           events := Fetched c :: match d with
                                  | NoDir => [MadeDir; Wrote text]
                                  | _ => [Wrote text]
                                  end |}
  end.

(** ** Examples: a shop, a stored token, a request, and answers of the
    platform *)

(** Worlds for the examples: the platform gives the same answer to every
    call. *)
Definition answering (answer : result fetch_response) : world :=
  {| network := fun _ => answer;
     clock := "2025-04-01T12:00:00.000Z";
     error_text := fun _ => "Error";
     Buffer_from_object := fun _ => inl TypeError_invalid_argument |}.

Definition unreachable : world := answering (inl (Rejected "ECONNREFUSED")).

Definition example_env : process_env :=
  [ ("SHOP", "s.myshopify.com"); ("SHOPIFY_API_KEY", "client-id");
    ("SHOPIFY_API_SECRET", "hush"); ("HOST", "https://relay.example");
    ("ADMIN_TOKEN", "shpat_1") ].

Definition example_token : json :=
  JObj [ ("shop", JStr "s.myshopify.com"); ("access_token", JStr "shpat_1");
         ("scope", JStr "write_draft_orders"); ("created_at", JStr "2025-04-01T12:00:00.000Z") ].

Definition example_request : request :=
  {| query := [];
     json_sent :=
       Some (JObj [ ("phone", JStr "0100 555 0100");
                    ("product", JObj [("title", JStr "Mug"); ("url", JStr "/products/mug")]);
                    ("customer", JObj [("logged_in", JBool true);
                                       ("first_name", JStr " Nour ");
                                       ("last_name", JNull);
                                       ("email", JStr "nour@example.com")]) ]) |}.

Definition answer_created : result fetch_response :=
  inr {| ok := true;
         json_body :=
           inr (JObj [("data",
                       JObj [("draftOrderCreate",
                              JObj [("draftOrder", JObj [("id", JStr "gid://shopify/DraftOrder/1");
                                                         ("name", JStr "#D1")]);
                                    ("userErrors", JArr [])])])]) |}.

Definition answer_user_error : result fetch_response :=
  inr {| ok := true;
         json_body :=
           inr (JObj [("data",
                       JObj [("draftOrderCreate",
                              JObj [("draftOrder", JNull);
                                    ("userErrors",
                                     JArr [JObj [("field", JArr [JStr "email"]);
                                                 ("message", JStr "Email is invalid")]])])])]) |}.

(** A callback query signed with the example secret (the digest is the one
    HMAC-SHA-256 gives for "code=c0de&shop=s.myshopify.com" under "hush"),
    and the platform's answer to the exchange. *)
Definition signed_query : list (string * value) :=
  [ ("code", VStr "c0de");
    ("hmac", VStr "f2ec6fa619e8fad0920b0ba98722bd54c9527c2fbc9ab491f08ba6afa2926511");
    ("shop", VStr "s.myshopify.com") ].

Definition answer_token : result fetch_response :=
  inr {| ok := true;
         json_body := inr (JObj [("access_token", JStr "shpat_1");
                                 ("scope", JStr "write_draft_orders")]) |}.

(** ** The platform's answer, the environment, the note *)

(** The world [w], with the [ok] flag of every answer set to [b]. *)
Definition with_ok (b : bool) (w : world) : world :=
  {| network := fun c => match network w c with
                         | inr resp => inr {| ok := b; json_body := json_body resp |}
                         | inl e => inl e
                         end;
     clock := clock w;
     error_text := error_text w;
     Buffer_from_object := Buffer_from_object w |}.

(** The 200 whose [draft_name] is [undefined]. *)
Definition created_without_name : response :=
  send_json 200 (VObj [("ok", VBool true); ("draft_name", VUndefined)]).

(** The 500 of the static-token variant without its variables. *)
Definition misconfigured : response :=
  send_json 500 (VObj [("error", VStr "Missing SHOP or ADMIN_TOKEN env vars")]).

(** The string [v || ""] is, for a [v] that is a string or falsy. *)
Definition text_or_empty (v : value) : string :=
  match v with
  | VStr s => s
  | _ => EmptyString
  end.

(** [SCOPES], a string. *)
Definition scopes (env : process_env) : string :=
  match Server.SCOPES env with
  | VStr s => s
  | _ => "write_draft_orders,read_customers"
  end.

(** [SHOP], [API_KEY] and [HOST] are all set. *)
Definition auth_ready (env : process_env) : bool :=
  truthy (Server.SHOP env) && truthy (Server.API_KEY env) && truthy (Server.HOST env).

(** The names of the customer can be trimmed: the customer is a guest, or
    both names are strings (or absent). *)
Definition names_ok (customer : value) : bool :=
  negb (truthy (get customer "logged_in"))
  || (text_or_absent (get customer "first_name")
      && text_or_absent (get customer "last_name")).

(** The note's last line, given the text of the email. *)
Definition customer_line (customer : value) (email : string) : string :=
  if truthy (get customer "logged_in")
  then ("Customer: " ++ trim (text_or_empty (get customer "first_name")) ++ " "
        ++ trim (text_or_empty (get customer "last_name")) ++ " | " ++ email)%string
  else "Customer: Guest (not logged in)".

(** The draft order's input for a body, given the texts of its phone, of
    the product's title and URL, and the note's last line. *)
Definition draft_order (body : value) (phone title link who : string) : value :=
  let product := get body "product" in
  let customer := get body "customer" in
  VObj
    ([ ("tags", VArr [VStr "Customization request"]);
       ("note", VStr (join newline
                        [ "Customization request";
                          ("Product: " ++ title)%string;
                          ("Link: " ++ link)%string;
                          ("Phone: " ++ phone)%string;
                          who ]));
       ("lineItems",
        VArr [VObj [("title", VStr ("Customization request - " ++ title));
                    ("quantity", VNum 1);
                    ("originalUnitPrice", VStr "0.00");
                    ("customAttributes",
                     VArr [VObj [("key", VStr "Type");
                                 ("value", VStr "Customization request")];
                           VObj [("key", VStr "Product"); ("value", get product "title")];
                           VObj [("key", VStr "Product URL"); ("value", get product "url")];
                           VObj [("key", VStr "Phone"); ("value", get body "phone")]])]]) ]
     ++ (if truthy (get customer "logged_in") && truthy (get customer "email")
         then [("email", get customer "email")]
         else [])).

(** ** Query strings *)

Fixpoint every (p : ascii -> bool) (s : string) : bool :=
  match s with
  | EmptyString => true
  | String c r => p c && every p r
  end.

(** A character that stands for itself in a query string, or one of the
    three that structure it. *)
Definition url_safe (c : ascii) : bool :=
  unreserved c || existsb (Ascii.eqb c) ["%"; "="; "&"]%char.

(** [c] does not occur in [s]. *)
Definition without (c : ascii) (s : string) : bool :=
  every (fun x => negb (Ascii.eqb x c)) s.

(** Parameters whose values are strings. *)
Definition text_params (ps : list (string * string)) : list (string * value) :=
  map (fun kv => (fst kv, VStr (snd kv))) ps.

(** One parameter, as [buildQueryString] writes it. *)
Definition written (kv : string * string) : string :=
  (encodeURIComponent (fst kv) ++ "=" ++ encodeURIComponent (snd kv))%string.

(** The values [buildQueryString] filters out. *)
Definition left_out (v : value) : Prop :=
  v = VUndefined \/ v = VNull \/ v = VStr EmptyString.

(** ** Signatures *)

(** The [message] of [verifyAppProxy]: the parameters but [signature],
    sorted by name, each written name=value, joined with nothing between
    them. *)
Definition proxy_message (q : list (string * value)) : result string :=
  pairs <~ map_result
             (fun k => text <~ ToString (get (VObj q) k) ;; inr (k ++ "=" ++ text)%string)
             (sort (keys q)) ;;
  inr (join EmptyString pairs).

(** The order of [sort], as a relation. *)
Definition code_unit_le (a b : string) : Prop := code_unit_leb a b = true.

(** * Properties *)

(** ** Induction on JSON texts *)

Section json_induction.
Variable P : json -> Prop.
Hypothesis Hnull : P JNull.
Hypothesis Hbool : forall b, P (JBool b).
Hypothesis Hnum : forall n, P (JNum n).
Hypothesis Hstr : forall s, P (JStr s).
Hypothesis Harr : forall l, Forall P l -> P (JArr l).
Hypothesis Hobj : forall l, Forall (fun kv => P (snd kv)) l -> P (JObj l).

Fixpoint json_nested_ind (j : json) : P j :=
  match j with
  | JNull => Hnull
  | JBool b => Hbool b
  | JNum n => Hnum n
  | JStr s => Hstr s
  | JArr l =>
      Harr l ((fix all (l : list json) : Forall P l :=
                 match l with
                 | [] => Forall_nil P
                 | x :: r => Forall_cons x (json_nested_ind x) (all r)
                 end) l)
  | JObj l =>
      Hobj l ((fix all (l : list (string * json)) : Forall (fun kv => P (snd kv)) l :=
                 match l with
                 | [] => Forall_nil _
                 | (k, x) :: r =>
                     Forall_cons (k, x) (json_nested_ind x : P (snd (k, x))) (all r)
                 end) l)
  end.

End json_induction.

(** [JSON.stringify] gives back the text [JSON.parse] read. *)
Lemma stringify_parse (j : json) : JSON_stringify (JSON_parse j) = Some j.
Proof.
  induction j using json_nested_ind; try reflexivity.
  - cbn [JSON_parse JSON_stringify]. do 2 f_equal.
    induction H as [|x l Hx _ IH]; [reflexivity|].
    cbn [map]. now rewrite Hx, IH.
  - cbn [JSON_parse JSON_stringify]. do 2 f_equal.
    induction H as [|[k x] l Hx _ IH]; [reflexivity|].
    cbn [map snd] in *. now rewrite Hx, IH.
Qed.

(** A template literal writes an array as [join(",")] does. *)
Lemma ToString_array (l : list value) : ToString (VArr l) = Array_join "," l.
Proof.
  unfold Array_join. cbn [ToString]. f_equal.
  induction l as [|x l IH]; [reflexivity|].
  cbn [map_result]. now rewrite IH.
Qed.

(** ** The token store *)

Lemma loadToken_run (m : machine) : Server.loadToken m = (inr (stored (files m)), m).
Proof.
  destruct m as [[| |text] tr]; reflexivity.
Qed.

Lemma saveToken_run (v : value) (text : json) (m : machine) :
  JSON_stringify v = Some text ->
  Server.saveToken v m =
    (inr tt, {| files := TokenFile text;
                trace := trace m ++ match files m with
                                    | NoDir => [MadeDir; Wrote text]
                                    | _ => [Wrote text]
                                    end |}).
Proof.
  intros H. destruct m as [[| |old] tr];
    unfold Server.saveToken, bind, existsSync, mkdirSync, writeFileSync, emit, ret;
    cbn; rewrite H; cbn; rewrite <- ?app_assoc; reflexivity.
Qed.



(** ** The submission handler of [server.js], path by path *)

Lemma prop_get (v : value) (k k' : string) :
  truthy (get v k) = true -> prop v k' = inr (get v k').
Proof.
  destruct v; cbn; try discriminate; reflexivity.
Qed.

Lemma prop_get_get (v : value) (k1 k2 k' : string) :
  truthy (get (get v k1) k2) = true -> prop v k' = inr (get v k').
Proof.
  destruct v; cbn; try discriminate; reflexivity.
Qed.

Lemma submit_run (w : world) (env : process_env) (req : request) (m : machine) :
  Server.submit w env req m =
    if negb (truthy (get (stored (files m)) "access_token"))
    then (inr token_missing, m)
    else if negb (complete (submitted req))
    then (inr missing_data, m)
    else
      match input_of req with
      | inl e => (inl e, m)
      | inr input =>
          match server_call env (files m) input with
          | inl e => (inl e, m)
          | inr c =>
              match network w c with
              | inl e => (inl e, logged m (Fetched c))
              | inr resp =>
                  match json_body resp with
                  | inl e => (inl e, logged m (Fetched c))
                  | inr j => (server_reply (JSON_parse j), logged m (Fetched c))
                  end
              end
          end
      end.
Proof.
  unfold Server.submit, bind at 1. rewrite loadToken_run.
  destruct (truthy (get (stored (files m)) "access_token")) eqn:Htok; [|reflexivity].
  cbn [negb]. unfold complete, submitted, input_of.
  rewrite !negb_andb.
  destruct (_ || _ || _); [reflexivity|].
  cbv beta iota zeta delta [bind lift fetch emit response_json ret server_call logged
                            fst snd files trace negb].
  destruct (Server.draftInput _ _ _) as [e|input]; [reflexivity|].
  rewrite !(prop_get _ _ _ Htok).
  destruct (Server.graphql_request _ _ _ _) as [e|c]; [reflexivity|].
  destruct (network w c) as [e|resp]; [reflexivity|].
  destruct (json_body resp) as [e|j]; [reflexivity|].
  unfold server_reply.
  set (result := get (get (JSON_parse j) "data") "draftOrderCreate").
  destruct (truthy (get (get result "userErrors") "length")) eqn:Hlen; [|reflexivity].
  rewrite !(prop_get_get _ _ _ _ Hlen).
  unfold and_then.
  destruct (first (get result "userErrors")) as [e|error0]; [reflexivity|].
  destruct (prop error0 "message"); reflexivity.
Qed.

Lemma server_run (w : world) (env : process_env) (req : request) (d : disk) :
  run (Server.customization_request w env req) d =
    caught w (Server.customization_request_try w env req (fresh d)).
Proof.
  unfold run, Server.customization_request, try_catch, caught, fresh, ret.
  destruct (Server.customization_request_try _ _ _ _) as [[e|r] m]; reflexivity.
Qed.

Lemma static_run (w : world) (env : process_env) (req : request) (d : disk) :
  run (Static.customization_request w env req) d =
    caught w (Static.customization_request_try w env req (fresh d)).
Proof.
  unfold run, Static.customization_request, try_catch, caught, fresh, ret.
  destruct (Static.customization_request_try _ _ _ _) as [[e|r] m]; reflexivity.
Qed.

Lemma server_try_run (w : world) (env : process_env) (req : request) (m : machine) :
  Server.customization_request_try w env req m =
    if strict_eq_string (getenv env "VERIFY_PROXY") "true"
    then match Server.verifyAppProxy req (Server.API_SECRET env) with
         | inl e => (inl e, m)
         | inr false => (inr invalid_signature, m)
         | inr true => Server.submit w env req m
         end
    else Server.submit w env req m.
Proof.
  unfold Server.customization_request_try.
  destruct (strict_eq_string _ _); [|reflexivity].
  unfold bind, lift.
  destruct (Server.verifyAppProxy _ _) as [e|[|]]; reflexivity.
Qed.

Lemma server_try_passed (w : world) (env : process_env) (req : request) (m : machine) :
  gate_passes env req ->
  Server.customization_request_try w env req m = Server.submit w env req m.
Proof.
  intros [Hoff|Hok]; rewrite server_try_run.
  - now rewrite Hoff.
  - rewrite Hok. now destruct (strict_eq_string _ _).
Qed.

Lemma static_try_run (w : world) (env : process_env) (req : request) (m : machine) :
  Static.customization_request_try w env req m =
    if negb (configured env)
    then (inr (send_json 500 (VObj [("error", VStr "Missing SHOP or ADMIN_TOKEN env vars")])), m)
    else if negb (complete (submitted req))
    then (inr missing_data, m)
    else
      match input_of req with
      | inl e => (inl e, m)
      | inr input =>
          match Static.graphql_request env input with
          | inl e => (inl e, m)
          | inr c =>
              match network w c with
              | inl e => (inl e, logged m (Fetched c))
              | inr resp =>
                  match json_body resp with
                  | inl e => (inl e, logged m (Fetched c))
                  | inr j => (static_reply (JSON_parse j), logged m (Fetched c))
                  end
              end
          end
      end.
Proof.
  unfold Static.customization_request_try, configured, complete, submitted, input_of.
  change Server.draftInput with Static.draftInput.
  rewrite !negb_andb.
  destruct (_ || _); [reflexivity|].
  destruct (_ || _ || _); [reflexivity|].
  cbv beta iota zeta delta [bind lift fetch emit response_json ret logged
                            fst snd files trace negb].
  destruct (Static.draftInput _ _ _) as [e|input]; [reflexivity|].
  destruct (Static.graphql_request _ _) as [e|c]; [reflexivity|].
  destruct (network w c) as [e|resp]; [reflexivity|].
  destruct (json_body resp) as [e|j]; [reflexivity|].
  unfold static_reply.
  set (result := get (get (JSON_parse j) "data") "draftOrderCreate").
  destruct (truthy (get (get result "userErrors") "length")) eqn:Hlen; [|reflexivity].
  rewrite !(prop_get_get _ _ _ _ Hlen).
  unfold and_then.
  destruct (first (get result "userErrors")) as [e|error0]; [reflexivity|].
  destruct (prop error0 "message"); reflexivity.
Qed.

Lemma strict_eq_string_lookup (env : process_env) (name s : string) :
  strict_eq_string (getenv env name) s = true <-> lookup name env = Some s.
Proof.
  unfold getenv. destruct (lookup name env) as [s'|]; cbn.
  - rewrite String.eqb_eq. split; congruence.
  - split; discriminate.
Qed.

Lemma server_reply_cases (json : value) :
  (exists e, server_reply json = inl e) \/
  (exists body, server_reply json = inr (send_json 400 body)) \/
  (exists body, server_reply json = inr (send_json 200 body)).
Proof.
  unfold server_reply, and_then.
  destruct (truthy _); [|right; right; eauto].
  destruct (first _) as [e|error0]; [left; eauto|].
  destruct (prop error0 "message"); [left; eauto|right; left; eauto].
Qed.

Lemma static_reply_cases (json : value) :
  (exists e, static_reply json = inl e) \/
  (exists body, static_reply json = inr (send_json 400 body)) \/
  (exists body, static_reply json = inr (send_json 200 body)).
Proof.
  unfold static_reply, and_then.
  destruct (truthy _); [|right; right; eauto].
  destruct (first _) as [e|error0]; [left; eauto|].
  destruct (prop error0 "message"); [left; eauto|right; left; eauto].
Qed.

Lemma submit_never_invalid_signature
  (w : world) (env : process_env) (req : request) (m : machine) :
  responded (caught w (Server.submit w env req m)) <> inr invalid_signature.
Proof.
  rewrite submit_run. unfold caught, invalid_signature.
  destruct (negb _); [cbn; discriminate|].
  destruct (negb _); [cbn; discriminate|].
  destruct (input_of req) as [e|input]; [cbn; discriminate|].
  destruct (server_call _ _ _) as [e|c]; [cbn; discriminate|].
  destruct (network w _) as [e|resp]; [cbn; discriminate|].
  destruct (json_body resp) as [e|j]; [cbn; discriminate|].
  destruct (server_reply_cases (JSON_parse j)) as [[e H]|[[b H]|[b H]]];
    rewrite H; cbn; discriminate.
Qed.

(** The handler's outcome does not depend on the query string once the
    gate is switched off. *)
Lemma submit_ignores_query
  (w : world) (env : process_env) (req : request) (q : list (string * value)) :
  Server.submit w env {| query := q; json_sent := json_sent req |}
  = Server.submit w env req.
Proof.
  reflexivity.
Qed.

(** C10: the handler answers 401 "Invalid proxy signature" exactly when
    the variable VERIFY_PROXY is the string "true" and [verifyAppProxy]
    returns false; with any other value of VERIFY_PROXY, or none, what the
    handler does is the same for every query string, signed or not. *)
Theorem proxy_signature_is_opt_in :
  forall (w : world) (env : process_env) (req : request) (d : disk),
    (responded (run (Server.customization_request w env req) d) = inr invalid_signature
     <-> lookup "VERIFY_PROXY" env = Some "true" /\
         Server.verifyAppProxy req (Server.API_SECRET env) = inr false)
    /\
    (lookup "VERIFY_PROXY" env <> Some "true" ->
     forall q : list (string * value),
       run (Server.customization_request w env {| query := q; json_sent := json_sent req |}) d
       = run (Server.customization_request w env req) d).
Proof.
  intros w env req d. split.
  - rewrite server_run, server_try_run, <- strict_eq_string_lookup.
    destruct (strict_eq_string _ _) eqn:Hgate.
    + destruct (Server.verifyAppProxy _ _) as [e|[|]] eqn:Hsig.
      * split; [cbn; discriminate|intros [_ H]; discriminate].
      * split; [intros H; now apply submit_never_invalid_signature in H|].
        intros [_ H]; discriminate.
      * split; [auto|reflexivity].
    + split; [intros H; now apply submit_never_invalid_signature in H|].
      intros [H _]; discriminate.
  - intros Hoff q. rewrite !server_run, !server_try_run.
    destruct (strict_eq_string _ _) eqn:Hgate.
    + apply strict_eq_string_lookup in Hgate. contradiction.
    + reflexivity.
Qed.

(** C10 at work: with VERIFY_PROXY set to "false", a request carrying a
    forged signature is treated as the same request without one. *)
Lemma proxy_signature_is_opt_in_witness :
  let env := [("VERIFY_PROXY", "false")] in
  run (Server.customization_request unreachable env
         {| query := [("signature", VStr "forged")]; json_sent := None |}) EmptyDir
  = run (Server.customization_request unreachable env
           {| query := []; json_sent := None |}) EmptyDir.
Proof.
  intros env.
  apply (proj2 (proxy_signature_is_opt_in unreachable env
                  {| query := []; json_sent := None |} EmptyDir)).
  discriminate.
Defined.

(** Before the token is found and the body is complete, nothing is sent
    and nothing is written. *)
Lemma server_refusal (w : world) (env : process_env) (req : request) (d : disk) :
  truthy (get (stored d) "access_token") = false \/ complete (submitted req) = false ->
  let o := run (Server.customization_request w env req) d in
  events o = [] /\ disk_after o = d.
Proof.
  intros H o. subst o. rewrite server_run, server_try_run.
  assert (Hsub : events (caught w (Server.submit w env req (fresh d))) = [] /\
                 disk_after (caught w (Server.submit w env req (fresh d))) = d).
  { rewrite submit_run. cbn [fresh files].
    destruct (truthy (get (stored d) "access_token")); cbn [negb]; [|now split].
    destruct H as [H|H]; [discriminate|]. rewrite H. now split. }
  destruct (strict_eq_string _ _); [|exact Hsub].
  destruct (Server.verifyAppProxy _ _) as [e|[|]]; [now split|exact Hsub|now split].
Qed.

(** C6, as amended: when no token has been persisted, or the stored token
    lacks an [access_token], the handler makes no outbound call and writes
    nothing; and provided the signature gate lets the request through (it is
    off, or the signature verifies), it answers 401 with the error that
    sends the operator to /auth. *)
Theorem missing_token_is_refused :
  forall (w : world) (env : process_env) (req : request) (d : disk),
    truthy (get (stored d) "access_token") = false ->
    let o := run (Server.customization_request w env req) d in
    requests (events o) = [] /\
    disk_after o = d /\
    (gate_passes env req -> responded o = inr token_missing).
Proof.
  intros w env req d Htok o.
  destruct (server_refusal w env req d (or_introl Htok)) as [Hev Hd].
  fold o in Hev, Hd. rewrite Hev. repeat split; [exact Hd|].
  intros Hgate. subst o.
  rewrite server_run, (server_try_passed _ _ _ _ Hgate), submit_run.
  cbn [fresh files]. now rewrite Htok.
Qed.

(** C6 on a server that has never been installed. *)
Lemma missing_token_is_refused_witness :
  let req := {| query := []; json_sent := Some (JObj [("phone", JStr "0100")]) |} in
  let o := run (Server.customization_request unreachable [] req) NoDir in
  requests (events o) = [] /\
  disk_after o = NoDir /\
  (gate_passes [] req -> responded o = inr token_missing).
Proof.
  intros req.
  apply (missing_token_is_refused unreachable [] req NoDir).
  reflexivity.
Defined.

(** C6 as stated fails when the gate is on and the request is unsigned:
    the answer is 401, but it is the signature error, not the one that
    sends the operator to /auth. *)
Lemma missing_token_behind_closed_gate :
  let req := {| query := []; json_sent := None |} in
  let o := run (Server.customization_request unreachable [("VERIFY_PROXY", "true")] req)
             NoDir in
  truthy (get (stored NoDir) "access_token") = false /\
  responded o = inr invalid_signature /\
  invalid_signature <> token_missing.
Proof.
  repeat split. discriminate.
Qed.

(** C2, as amended: when the body, or the absent body, lacks a phone, a
    product title or a product URL, neither variant makes an outbound call
    or touches the disk. [server.js] answers 400 "Missing phone or product
    data" provided the signature gate lets the request through and a token
    with an [access_token] is stored; the static-token variant answers it
    provided SHOP and ADMIN_TOKEN are set. *)
Theorem incomplete_submission_is_refused :
  forall (w : world) (env : process_env) (req : request) (d : disk),
    complete (submitted req) = false ->
    let o := run (Server.customization_request w env req) d in
    let o' := run (Static.customization_request w env req) d in
    (requests (events o) = [] /\ disk_after o = d /\
     (gate_passes env req -> truthy (get (stored d) "access_token") = true ->
      responded o = inr missing_data))
    /\
    (requests (events o') = [] /\ disk_after o' = d /\
     (configured env = true -> responded o' = inr missing_data)).
Proof.
  intros w env req d Hbody o o'. split.
  - destruct (server_refusal w env req d (or_intror Hbody)) as [Hev Hd].
    fold o in Hev, Hd. rewrite Hev. repeat split; [exact Hd|].
    intros Hgate Htok. subst o.
    rewrite server_run, (server_try_passed _ _ _ _ Hgate), submit_run.
    cbn [fresh files]. now rewrite Htok, Hbody.
  - subst o'. rewrite static_run, static_try_run, Hbody. cbn [negb].
    destruct (configured env); cbn; repeat split; intros; discriminate.
Qed.

(** C2 on a body without a phone, in both variants. *)
Lemma incomplete_submission_is_refused_witness :
  let env := [("SHOP", "s.myshopify.com"); ("ADMIN_TOKEN", "shpat_1")] in
  let d := TokenFile (JObj [("shop", JStr "s.myshopify.com");
                            ("access_token", JStr "shpat_1")]) in
  let req := {| query := [];
                json_sent := Some (JObj [("product", JObj [("title", JStr "Mug");
                                                           ("url", JStr "/mug")])]) |} in
  responded (run (Server.customization_request unreachable env req) d) = inr missing_data /\
  responded (run (Static.customization_request unreachable env req) d) = inr missing_data.
Proof.
  intros env d req.
  destruct (incomplete_submission_is_refused unreachable env req d eq_refl)
    as [(_ & _ & Hserver) (_ & _ & Hstatic)].
  split; [apply Hserver; [left|]; reflexivity|apply Hstatic; reflexivity].
Defined.

(** C2 as stated fails in [server.js] when no token is stored: the token
    is looked for before the body is, and the answer is 401. In the
    static-token variant it fails when SHOP or ADMIN_TOKEN is not set: the
    answer is 500. *)
Lemma incomplete_submission_without_token :
  let req := {| query := []; json_sent := None |} in
  complete (submitted req) = false /\
  responded (run (Server.customization_request unreachable [] req) NoDir)
  = inr token_missing /\
  responded (run (Static.customization_request unreachable [] req) NoDir)
  = inr (send_json 500 (VObj [("error", VStr "Missing SHOP or ADMIN_TOKEN env vars")])).
Proof.
  repeat split.
Qed.


(** ** What is sent to the platform *)

Lemma nonempty_truthy (s : string) : s <> EmptyString -> truthy (VStr s) = true.
Proof.
  intros H. cbn. now apply String.eqb_neq in H as ->.
Qed.

Lemma trim_or_empty (v : value) :
  text_or_absent v = true ->
  trim_method (or_else v (VStr EmptyString)) = inr (trim (text_or_empty v)).
Proof.
  unfold or_else. destruct v as [| |[|]|n|s|l|o]; cbn; try discriminate; try reflexivity.
  - destruct (n =? 0)%Z; cbn; [reflexivity|discriminate].
  - destruct (s =? "")%string eqn:Hs; cbn; [|reflexivity].
    apply String.eqb_eq in Hs as ->. reflexivity.
Qed.

Lemma draftInput_written (body : value) (phone title link email : string) :
  let product := get body "product" in
  let customer := get body "customer" in
  ToString (get body "phone") = inr phone ->
  truthy (get product "title") = true -> ToString (get product "title") = inr title ->
  ToString (get product "url") = inr link ->
  names_ok customer = true ->
  (truthy (get customer "logged_in") = true ->
   ToString (or_else (get customer "email") (VStr EmptyString)) = inr email) ->
  Server.draftInput (get body "phone") product customer
  = inr (draft_order body phone title link (customer_line customer email)).
Proof.
  intros product customer Hphone Ht Htitle Hlink Hnames Hemail.
  unfold Server.draftInput, Server.noteLines, draft_order, customer_line, names_ok in *.
  fold product customer.
  rewrite !(prop_get _ _ _ Ht). cbn [and_then].
  rewrite Htitle. cbn [and_then]. rewrite Hlink. cbn [and_then]. rewrite Hphone. cbn [and_then].
  destruct (truthy (get customer "logged_in")) eqn:Hin; cbn [negb orb andb] in *.
  - apply andb_prop in Hnames as [Hfirst Hlast].
    rewrite !(prop_get _ _ _ Hin). cbn [and_then].
    rewrite (trim_or_empty _ Hfirst), (trim_or_empty _ Hlast), (Hemail eq_refl).
    cbn [and_then].
    now destruct (truthy (get customer "email")).
  - reflexivity.
Qed.

Lemma API_VER_string (env : process_env) : Server.API_VER env = VStr (api_version env).
Proof.
  unfold api_version, Server.API_VER, or_else, getenv.
  destruct (lookup "API_VER" env) as [s|]; [|reflexivity].
  cbn. now destruct (s =? "")%string.
Qed.

Lemma server_call_ok (env : process_env) (d : disk) (shop token : string) (input : value) :
  get (stored d) "shop" = VStr shop ->
  get (stored d) "access_token" = VStr token ->
  server_call env d input = inr (draft_order_call shop (api_version env) token input).
Proof.
  intros Hshop Htoken. unfold server_call, Server.graphql_request.
  now rewrite Hshop, Htoken, API_VER_string.
Qed.

Lemma server_call_written (env : process_env) (d : disk) (shop token : string) (input : value) :
  ToString (get (stored d) "shop") = inr shop ->
  ToString (get (stored d) "access_token") = inr token ->
  server_call env d input = inr (draft_order_call shop (api_version env) token input).
Proof.
  intros Hshop Htoken. unfold server_call, Server.graphql_request.
  now rewrite Hshop, Htoken, API_VER_string.
Qed.

Lemma static_call_ok (env : process_env) (shop token : string) (input : value) :
  lookup "SHOP" env = Some shop ->
  lookup "ADMIN_TOKEN" env = Some token ->
  Static.graphql_request env input = inr (draft_order_call shop "2025-04" token input).
Proof.
  intros Hshop Htoken.
  unfold Static.graphql_request, Static.SHOP, Static.ADMIN_TOKEN, getenv.
  now rewrite Hshop, Htoken.
Qed.

(** The response, once the call has been answered without user errors. *)
Lemma settle_created (w : world) (reply : value -> result response) (c : fetch_request) :
  (forall json, no_user_errors json = true -> reply json = inr (created json)) ->
  forall resp j,
    network w c = inr resp -> json_body resp = inr j ->
    no_user_errors (JSON_parse j) = true ->
    settle w reply (network w c) = created (JSON_parse j).
Proof.
  intros Hreply resp j Hnet Hjson Hnone. unfold settle.
  now rewrite Hnet, Hjson, (Hreply _ Hnone).
Qed.

Lemma server_reply_created (json : value) :
  no_user_errors json = true -> server_reply json = inr (created json).
Proof.
  unfold no_user_errors, server_reply. intros H. apply negb_true_iff in H. now rewrite H.
Qed.

Lemma static_reply_created (json : value) :
  no_user_errors json = true -> static_reply json = inr (created json).
Proof.
  unfold no_user_errors, static_reply. intros H. apply negb_true_iff in H. now rewrite H.
Qed.

(** The run of a handler that has made its call [c]. *)
Lemma caught_called (w : world) (reply : value -> result response)
  (d : disk) (c : fetch_request) :
  caught w match network w c with
           | inl e => (inl e, logged (fresh d) (Fetched c))
           | inr resp =>
               match json_body resp with
               | inl e => (inl e, logged (fresh d) (Fetched c))
               | inr j => (reply (JSON_parse j), logged (fresh d) (Fetched c))
               end
           end
  = {| responded := inr (settle w reply (network w c));
       disk_after := d;
       events := [Fetched c] |}.
Proof.
  unfold caught, settle.
  destruct (network w c) as [e|resp]; [reflexivity|].
  destruct (json_body resp) as [e|j]; [reflexivity|].
  now destruct (reply (JSON_parse j)).
Qed.

(** C1, as amended: for a body whose phone, product title and product URL
    are truthy and can be written as strings ([String(v)] does not throw:
    strings and numbers, for one), where the names of a logged-in customer
    are strings (or absent) and their email can be written, the handler of
    [server.js], provided the signature gate lets the request through and
    the stored token has a truthy [access_token] and a shop that can be
    written as strings, makes exactly one call: a POST to the shop's GraphQL
    endpoint carrying the [draftOrderCreate] mutation, whose input has the
    tag, the note (the request, the product, the link, the phone, and as
    last line "Customer: Guest (not logged in)" for a guest, or the trimmed
    names and the email of a logged-in customer), and one line item of
    quantity 1 at "0.00" with the attributes Type, Product, Product URL and
    Phone taken from the body. When the platform answers with JSON that has
    no user errors, the handler responds 200 with [ok] and the draft order's
    name. The static-token variant does the same provided SHOP and
    ADMIN_TOKEN are set. *)
Theorem submission_is_forwarded :
  forall (w : world) (env : process_env) (req : request) (d : disk)
         (phone title link email : string),
    let body := submitted req in
    let product := get body "product" in
    let customer := get body "customer" in
    truthy (get body "phone") = true -> ToString (get body "phone") = inr phone ->
    truthy (get product "title") = true -> ToString (get product "title") = inr title ->
    truthy (get product "url") = true -> ToString (get product "url") = inr link ->
    names_ok customer = true ->
    (truthy (get customer "logged_in") = true ->
     ToString (or_else (get customer "email") (VStr EmptyString)) = inr email) ->
    let who :=
      if truthy (get customer "logged_in")
      then ("Customer: " ++ trim (text_or_empty (get customer "first_name")) ++ " "
            ++ trim (text_or_empty (get customer "last_name")) ++ " | " ++ email)%string
      else "Customer: Guest (not logged in)" in
    let input := draft_order body phone title link who in
    let o := run (Server.customization_request w env req) d in
    let o' := run (Static.customization_request w env req) d in
    (gate_passes env req ->
     forall shop token : string,
       truthy (get (stored d) "access_token") = true ->
       ToString (get (stored d) "shop") = inr shop ->
       ToString (get (stored d) "access_token") = inr token ->
       let call := draft_order_call shop (api_version env) token input in
       requests (events o) = [call] /\
       disk_after o = d /\
       (forall resp j,
           network w call = inr resp -> json_body resp = inr j ->
           no_user_errors (JSON_parse j) = true ->
           responded o = inr (created (JSON_parse j))))
    /\
    (forall shop token : string,
        lookup "SHOP" env = Some shop -> shop <> EmptyString ->
        lookup "ADMIN_TOKEN" env = Some token -> token <> EmptyString ->
        let call := draft_order_call shop "2025-04" token input in
        requests (events o') = [call] /\
        disk_after o' = d /\
        (forall resp j,
            network w call = inr resp -> json_body resp = inr j ->
            no_user_errors (JSON_parse j) = true ->
            responded o' = inr (created (JSON_parse j)))).
Proof.
  intros w env req d phone title link email body product customer
    Hp Hphone Ht Htitle Hl Hlink Hnames Hemail who input o o'.
  assert (Hinput : input_of req = inr input).
  { unfold input_of. fold body product customer.
    exact (draftInput_written body phone title link email Hphone Ht Htitle Hlink Hnames Hemail). }
  assert (Hbody : complete body = true).
  { unfold complete. fold product. now rewrite Hp, Ht, Hl. }
  split.
  - intros Hgate shop token Htok Hshop Htoken call. subst o.
    rewrite server_run, (server_try_passed _ _ _ _ Hgate), submit_run.
    cbn [fresh files]. rewrite Htok. fold body.
    rewrite Hbody, Hinput. cbn [negb].
    rewrite (server_call_written _ _ _ _ _ Hshop Htoken). fold call.
    rewrite caught_called. cbn [responded events disk_after requests flat_map app].
    repeat split. intros resp j Hnet Hjson Hnone. f_equal.
    now apply (settle_created w server_reply call server_reply_created resp j).
  - intros shop token Hshop Hs Htoken Hne call. subst o'.
    rewrite static_run, static_try_run. unfold configured, Static.SHOP, Static.ADMIN_TOKEN, getenv.
    rewrite Hshop, Htoken, !nonempty_truthy by assumption. fold body.
    rewrite Hbody, Hinput. cbn [negb andb].
    rewrite (static_call_ok _ _ _ _ Hshop Htoken). fold call.
    rewrite caught_called. cbn [responded events disk_after requests flat_map app].
    repeat split. intros resp j Hnet Hjson Hnone. f_equal.
    now apply (settle_created w static_reply call static_reply_created resp j).
Qed.

(** C1 on the example: the call, with the note in full, and 200 with the
    draft's name. *)
Lemma submission_is_forwarded_witness :
  let o := run (Server.customization_request (answering answer_created) example_env
                  example_request) (TokenFile example_token) in
  requests (events o)
  = [draft_order_call "s.myshopify.com" "2025-04" "shpat_1"
       (draft_order (submitted example_request) "0100 555 0100" "Mug" "/products/mug"
          "Customer: Nour  | nour@example.com")] /\
  responded o = inr (send_json 200 (VObj [("ok", VBool true); ("draft_name", VStr "#D1")])).
Proof.
  intros o.
  destruct (submission_is_forwarded (answering answer_created) example_env example_request
              (TokenFile example_token) "0100 555 0100" "Mug" "/products/mug"
              "nour@example.com"
              eq_refl eq_refl eq_refl eq_refl eq_refl eq_refl eq_refl (fun _ => eq_refl))
    as [Hserver _].
  destruct (Hserver (or_introl eq_refl) "s.myshopify.com" "shpat_1" eq_refl eq_refl eq_refl)
    as (Hcall & _ & Hok).
  split.
  - exact Hcall.
  - exact (Hok _ _ eq_refl eq_refl eq_refl).
Defined.

(** C1 as stated fails when the gate is on and the request is unsigned:
    the body is complete and a token is stored, yet nothing is sent and the
    answer is 401. *)
Lemma submission_behind_closed_gate :
  let env := ("VERIFY_PROXY", "true") :: example_env in
  let o := run (Server.customization_request (answering answer_created) env
                  example_request) (TokenFile example_token) in
  complete (submitted example_request) = true /\
  truthy (get (stored (TokenFile example_token)) "access_token") = true /\
  requests (events o) = [] /\
  responded o = inr invalid_signature.
Proof.
  repeat split.
Qed.

(** ** Both submission handlers, as a whole *)

Ltac refused :=
  split; [reflexivity|left; split; [reflexivity|]];
  eexists; split; [reflexivity|discriminate].

(** Either [server.js] answers without calling the platform, and not with
    200; or it is past every check, makes its one call, and answers as
    [settle] says. The disk is the same afterwards. *)
Lemma server_outcome (w : world) (env : process_env) (req : request) (d : disk) :
  let o := run (Server.customization_request w env req) d in
  disk_after o = d /\
  ((events o = [] /\ exists r, responded o = inr r /\ status_of r <> 200%Z) \/
   (exists input c,
       input_of req = inr input /\
       server_call env d input = inr c /\
       events o = [Fetched c] /\
       responded o = inr (settle w server_reply (network w c)))).
Proof.
  intros o. subst o. rewrite server_run, server_try_run.
  assert (Hsub :
    let o := caught w (Server.submit w env req (fresh d)) in
    disk_after o = d /\
    ((events o = [] /\ exists r, responded o = inr r /\ status_of r <> 200%Z) \/
     (exists input c,
         input_of req = inr input /\
         server_call env d input = inr c /\
         events o = [Fetched c] /\
         responded o = inr (settle w server_reply (network w c))))).
  { rewrite submit_run. cbn [fresh files].
    destruct (negb _); [refused|].
    destruct (negb _); [refused|].
    destruct (input_of req) as [e|input]; [refused|].
    destruct (server_call env d input) as [e|c] eqn:Hc; [refused|].
    fold (fresh d). rewrite caught_called.
    split; [reflexivity|]. right. exists input, c. repeat split. exact Hc. }
  destruct (strict_eq_string _ _); [|exact Hsub].
  destruct (Server.verifyAppProxy _ _) as [e|[|]]; [refused|exact Hsub|refused].
Qed.

Lemma static_outcome (w : world) (env : process_env) (req : request) (d : disk) :
  let o := run (Static.customization_request w env req) d in
  disk_after o = d /\
  ((events o = [] /\ exists r, responded o = inr r /\ status_of r <> 200%Z) \/
   (exists input c,
       input_of req = inr input /\
       Static.graphql_request env input = inr c /\
       events o = [Fetched c] /\
       responded o = inr (settle w static_reply (network w c)))).
Proof.
  intros o. subst o. rewrite static_run, static_try_run.
  destruct (negb _); [refused|].
  destruct (negb _); [refused|].
  destruct (input_of req) as [e|input]; [refused|].
  destruct (Static.graphql_request env input) as [e|c] eqn:Hc; [refused|].
  rewrite caught_called.
  split; [reflexivity|]. right. exists input, c. repeat split. exact Hc.
Qed.
(** ** One call, no retry *)

Lemma settle_failed (w : world) (reply : value -> result response) (c : fetch_request) :
  (forall json, no_user_errors json = false ->
                (exists e, reply json = inl e) \/ (exists b, reply json = inr (send_json 400 b))) ->
  failed w c -> is_error (settle w reply (network w c)).
Proof.
  intros Hreply. unfold failed, settle, is_error, server_error.
  destruct (network w c) as [e|resp]; [eauto|].
  destruct (json_body resp) as [e|j]; [eauto|].
  intros H. destruct (Hreply _ H) as [[e ->]|[b ->]]; eauto.
Qed.

Lemma server_reply_failed (json : value) :
  no_user_errors json = false ->
  (exists e, server_reply json = inl e) \/ (exists b, server_reply json = inr (send_json 400 b)).
Proof.
  unfold no_user_errors, server_reply, and_then. intros H.
  apply negb_false_iff in H. rewrite H.
  destruct (first _) as [e|error0]; [eauto|].
  destruct (prop error0 "message"); eauto.
Qed.

Lemma static_reply_failed (json : value) :
  no_user_errors json = false ->
  (exists e, static_reply json = inl e) \/ (exists b, static_reply json = inr (send_json 400 b)).
Proof.
  unfold no_user_errors, static_reply, and_then. intros H.
  apply negb_false_iff in H. rewrite H.
  destruct (first _) as [e|error0]; [eauto|].
  destruct (prop error0 "message"); eauto.
Qed.

(** C7: in both variants a submission causes at most one outbound call and
    leaves the disk as it was (nothing is queued); when that one call is
    rejected, or its answer is not JSON, or it carries user errors, the
    response is a 400 or a 500; and an exception anywhere in the handler
    ends in the 500 of its [catch]. Nowhere does the handler call again. *)
Theorem at_most_one_mutation :
  forall (w : world) (env : process_env) (req : request) (d : disk),
    let o := run (Server.customization_request w env req) d in
    let o' := run (Static.customization_request w env req) d in
    ((List.length (requests (events o)) <= 1)%nat /\
     disk_after o = d /\
     (forall c, requests (events o) = [c] -> failed w c ->
                exists r, responded o = inr r /\ is_error r) /\
     (forall e, fst (Server.customization_request_try w env req (fresh d)) = inl e ->
                responded o = inr (server_error w e)))
    /\
    ((List.length (requests (events o')) <= 1)%nat /\
     disk_after o' = d /\
     (forall c, requests (events o') = [c] -> failed w c ->
                exists r, responded o' = inr r /\ is_error r) /\
     (forall e, fst (Static.customization_request_try w env req (fresh d)) = inl e ->
                responded o' = inr (server_error w e))).
Proof.
  intros w env req d o o'. split.
  - destruct (server_outcome w env req d) as [Hd [[Hev _]|(input & c0 & _ & _ & Hev & Hr)]];
      fold o in Hd, Hev |- *; rewrite Hev; cbn [requests flat_map app List.length].
    + repeat split; [lia|exact Hd|discriminate|].
      intros e He. subst o. rewrite server_run. unfold caught. now rewrite He.
    + fold o in Hr. repeat split; [lia|exact Hd| |].
      * intros c [= ->] Hfail. eexists; split; [exact Hr|].
        apply settle_failed; [exact server_reply_failed|exact Hfail].
      * intros e He. subst o. rewrite server_run. unfold caught. now rewrite He.
  - destruct (static_outcome w env req d) as [Hd [[Hev _]|(input & c0 & _ & _ & Hev & Hr)]];
      fold o' in Hd, Hev |- *; rewrite Hev; cbn [requests flat_map app List.length].
    + repeat split; [lia|exact Hd|discriminate|].
      intros e He. subst o'. rewrite static_run. unfold caught. now rewrite He.
    + fold o' in Hr. repeat split; [lia|exact Hd| |].
      * intros c [= ->] Hfail. eexists; split; [exact Hr|].
        apply settle_failed; [exact static_reply_failed|exact Hfail].
      * intros e He. subst o'. rewrite static_run. unfold caught. now rewrite He.
Qed.

(** C7 on the example, with a platform that refuses the connection: one
    call, a 500, and no second attempt. *)
Lemma at_most_one_mutation_witness :
  let o := run (Server.customization_request unreachable example_env example_request)
             (TokenFile example_token) in
  (List.length (requests (events o)) <= 1)%nat /\
  exists r, responded o = inr r /\ is_error r.
Proof.
  intros o.
  destruct (at_most_one_mutation unreachable example_env example_request
              (TokenFile example_token)) as [(Hone & _ & Hfail & _) _].
  split; [exact Hone|].
  exact (Hfail _ eq_refl I).
Defined.


Lemma getenv_truthy (env : process_env) (name : string) :
  truthy (getenv env name) = true -> exists s, getenv env name = VStr s.
Proof.
  unfold getenv. destruct (lookup name env); [eauto|discriminate].
Qed.

(** ** User errors *)

Lemma nonempty_length_truthy (x : value) (l : list value) :
  truthy (get (VArr (x :: l)) "length") = true.
Proof.
  reflexivity.
Qed.

Lemma reply_to_user_errors (json e : value) (rest : list value) :
  get (get (get json "data") "draftOrderCreate") "userErrors" = VArr (e :: rest) ->
  is_nullish e = false ->
  server_reply json
  = inr (send_json 400 (VObj [("error", get e "message"); ("raw", VArr (e :: rest))])) /\
  static_reply json = inr (send_json 400 (VObj [("error", get e "message")])).
Proof.
  intros H He. unfold server_reply, static_reply.
  rewrite H, nonempty_length_truthy. cbn [first and_then]. unfold prop.
  rewrite He. split; reflexivity.
Qed.

(** C8, as amended: when the platform's answer to the handler's call
    carries a non-empty [userErrors] array whose first entry is not [null],
    the handler responds 400 with [error] set to that entry's message;
    [server.js] adds the whole array as [raw]. *)
Theorem user_errors_are_reported :
  forall (w : world) (env : process_env) (req : request) (d : disk)
         (c : fetch_request) (resp : fetch_response) (j : json)
         (e : value) (rest : list value),
    network w c = inr resp ->
    json_body resp = inr j ->
    get (get (get (JSON_parse j) "data") "draftOrderCreate") "userErrors"
    = VArr (e :: rest) ->
    is_nullish e = false ->
    (requests (events (run (Server.customization_request w env req) d)) = [c] ->
     responded (run (Server.customization_request w env req) d)
     = inr (send_json 400 (VObj [("error", get e "message"); ("raw", VArr (e :: rest))])))
    /\
    (requests (events (run (Static.customization_request w env req) d)) = [c] ->
     responded (run (Static.customization_request w env req) d)
     = inr (send_json 400 (VObj [("error", get e "message")]))).
Proof.
  intros w env req d c resp j e rest Hnet Hjson Hue He.
  destruct (reply_to_user_errors _ _ _ Hue He) as [Hserver Hstatic]. split.
  - destruct (server_outcome w env req d) as [_ [[Hev _]|(input & c0 & _ & _ & Hev & Hr)]];
      rewrite Hev; cbn [requests flat_map app]; [discriminate|].
    intros [= ->]. rewrite Hr. unfold settle. now rewrite Hnet, Hjson, Hserver.
  - destruct (static_outcome w env req d) as [_ [[Hev _]|(input & c0 & _ & _ & Hev & Hr)]];
      rewrite Hev; cbn [requests flat_map app]; [discriminate|].
    intros [= ->]. rewrite Hr. unfold settle. now rewrite Hnet, Hjson, Hstatic.
Qed.

(** C8 on the example: the platform refuses the email. *)
Lemma user_errors_are_reported_witness :
  let w := answering answer_user_error in
  let first_error := VObj [("field", VArr [VStr "email"]); ("message", VStr "Email is invalid")] in
  responded (run (Server.customization_request w example_env example_request)
               (TokenFile example_token))
  = inr (send_json 400 (VObj [("error", VStr "Email is invalid");
                              ("raw", VArr [first_error])])) /\
  responded (run (Static.customization_request w example_env example_request) NoDir)
  = inr (send_json 400 (VObj [("error", VStr "Email is invalid")])).
Proof.
  intros w first_error. split.
  - epose proof (user_errors_are_reported w example_env example_request
                   (TokenFile example_token) _ _ _ _ _ eq_refl eq_refl eq_refl eq_refl)
      as [H _].
    apply H. reflexivity.
  - epose proof (user_errors_are_reported w example_env example_request
                   NoDir _ _ _ _ _ eq_refl eq_refl eq_refl eq_refl) as [_ H].
    apply H. reflexivity.
Defined.

(** C8 as stated fails when the first entry of the array is [null]:
    reading its message throws, and both variants answer the 500 of their
    [catch], not a 400. *)
Lemma null_user_error_is_a_server_error :
  let answer := inr {| ok := true;
                       json_body :=
                         inr (JObj [("data",
                                     JObj [("draftOrderCreate",
                                            JObj [("userErrors", JArr [JNull])])])]) |} in
  let w := answering answer in
  responded (run (Server.customization_request w example_env example_request)
               (TokenFile example_token))
  = inr (server_error w TypeError_property_of_nullish) /\
  responded (run (Static.customization_request w example_env example_request) NoDir)
  = inr (server_error w TypeError_property_of_nullish).
Proof.
  split; reflexivity.
Qed.

(** ** The two variants, side by side *)

Lemma replies_agree (json : value) :
  match server_reply json, static_reply json with
  | inl e, inl e' => e = e'
  | inr (send_json s b), inr (send_json s' b') =>
      s = s' /\
      (b = b' \/
       exists message raw,
         s = 400%Z /\ b = VObj [("error", message); ("raw", raw)] /\
         b' = VObj [("error", message)])
  | _, _ => False
  end.
Proof.
  unfold server_reply, static_reply, and_then.
  destruct (truthy _); [|split; [reflexivity|now left]].
  destruct (first _) as [e|error0]; [reflexivity|].
  destruct (prop error0 "message") as [e|message]; [reflexivity|].
  split; [reflexivity|right; eauto].
Qed.

(** C5, as amended: the two variants build the note and the draft order's
    input by the same function of the body. On the submission path
    ([server.js] past its signature gate, with a token stored whose shop and
    non-empty [access_token] are strings; the static variant with SHOP and
    ADMIN_TOKEN set), for the same body and the same answer of the platform,
    they send the same payload and respond with the same status; the bodies
    of the responses are the same too, except that on user errors
    [server.js] adds the array as [raw] next to [error]. *)
Theorem variants_agree_on_submission :
  (forall phone product customer : value,
      Static.noteLines phone product customer = Server.noteLines phone product customer /\
      Static.draftInput phone product customer = Server.draftInput phone product customer)
  /\
  (forall (w : world) (env env' : process_env) (req : request) (d d' : disk)
          (shop token : string),
      gate_passes env req ->
      get (stored d) "shop" = VStr shop ->
      get (stored d) "access_token" = VStr token -> token <> EmptyString ->
      configured env' = true ->
      (forall c c', network w c = network w c') ->
      let o := run (Server.customization_request w env req) d in
      let o' := run (Static.customization_request w env' req) d' in
      map body (requests (events o)) = map body (requests (events o')) /\
      exists s b b',
        responded o = inr (send_json s b) /\
        responded o' = inr (send_json s b') /\
        (b = b' \/
         exists message raw,
           s = 400%Z /\ b = VObj [("error", message); ("raw", raw)] /\
           b' = VObj [("error", message)])).
Proof.
  split; [intros; split; reflexivity|].
  intros w env env' req d d' shop token Hgate Hshop Htoken Hne Hconf Hnet o o'. subst o o'.
  rewrite server_run, (server_try_passed _ _ _ _ Hgate), submit_run.
  rewrite static_run, static_try_run.
  cbn [fresh files]. rewrite Htoken, (nonempty_truthy _ Hne), Hconf. cbn [negb].
  destruct (negb _); [split; [reflexivity|]; do 3 eexists; repeat split; now left|].
  destruct (input_of req) as [e|input];
    [split; [reflexivity|]; do 3 eexists; repeat split; now left|].
  rewrite (server_call_ok _ _ _ _ _ Hshop Htoken).
  assert (Hstatic : exists shop' token',
             Static.graphql_request env' input
             = inr (draft_order_call shop' "2025-04" token' input)).
  { unfold configured in Hconf. apply andb_prop in Hconf as [Hs Ht].
    apply getenv_truthy in Hs as [shop' Hs], Ht as [token' Ht].
    exists shop', token'. unfold Static.graphql_request.
    unfold Static.SHOP in Hs. unfold Static.ADMIN_TOKEN in Ht.
    unfold Static.SHOP, Static.ADMIN_TOKEN. now rewrite Hs, Ht. }
  destruct Hstatic as (shop' & token' & ->).
  fold (fresh d) (fresh d'). rewrite !caught_called.
  cbn [responded events requests flat_map app map body draft_order_call].
  split; [reflexivity|].
  rewrite (Hnet (draft_order_call shop' "2025-04" token' input)
             (draft_order_call shop (api_version env) token input)).
  unfold settle, server_error.
  destruct (network w _) as [e|resp]; [do 3 eexists; repeat split; now left|].
  destruct (json_body resp) as [e|j]; [do 3 eexists; repeat split; now left|].
  pose proof (replies_agree (JSON_parse j)) as H.
  destruct (server_reply _) as [e|[|s b]], (static_reply _) as [e'|[|s' b']];
    try contradiction.
  - subst e'. do 3 eexists; repeat split; now left.
  - destruct H as [<- H]. exists s, b, b'. repeat split. exact H.
Qed.

(** C5 on the example, with the platform refusing the email: the same
    payload goes out, and the same status comes back. *)
Lemma variants_agree_on_submission_witness :
  let w := answering answer_user_error in
  let o := run (Server.customization_request w example_env example_request)
             (TokenFile example_token) in
  let o' := run (Static.customization_request w example_env example_request) NoDir in
  map body (requests (events o)) = map body (requests (events o')) /\
  exists s b b', responded o = inr (send_json s b) /\ responded o' = inr (send_json s b').
Proof.
  intros w o o'.
  destruct (proj2 variants_agree_on_submission w example_env example_env example_request
              (TokenFile example_token) NoDir "s.myshopify.com" "shpat_1"
              (or_introl eq_refl) eq_refl eq_refl ltac:(discriminate) eq_refl
              (fun _ _ => eq_refl))
    as (Hsent & s & b & b' & Hserver & Hstatic & _).
  split; [exact Hsent|]. exists s, b, b'. split; assumption.
Defined.

(** C5 as stated fails on user errors: for the same body and the same
    answer of the platform, the body of the response of [server.js] has
    [raw], and the static-token variant's has not. *)
Lemma variants_differ_on_user_errors :
  let w := answering answer_user_error in
  let first_error := VObj [("field", VArr [VStr "email"]); ("message", VStr "Email is invalid")] in
  responded (run (Server.customization_request w example_env example_request)
               (TokenFile example_token))
  = inr (send_json 400 (VObj [("error", VStr "Email is invalid");
                              ("raw", VArr [first_error])])) /\
  responded (run (Static.customization_request w example_env example_request) NoDir)
  = inr (send_json 400 (VObj [("error", VStr "Email is invalid")])) /\
  VObj [("error", VStr "Email is invalid"); ("raw", VArr [first_error])]
  <> VObj [("error", VStr "Email is invalid")].
Proof.
  repeat split. discriminate.
Qed.


(** ** The digest of HMAC-SHA-256 has 64 characters *)

Lemma be_bytes_length (width : nat) (x : N) : List.length (SHA256.be_bytes width x) = width.
Proof.
  unfold SHA256.be_bytes. now rewrite length_map, length_rev, length_seq.
Qed.

Lemma sha256_length (msg : list N) : List.length (SHA256.sha256 msg) = 32%nat.
Proof.
  unfold SHA256.sha256.
  destruct (fold_left _ _ _) as [[[[[[[a b] c] d] e] f] g] h].
  unfold SHA256.digest_bytes. now rewrite !length_app, !be_bytes_length.
Qed.

Lemma hex_length (l : list N) : String.length (SHA256.hex l) = (2 * List.length l)%nat.
Proof.
  induction l as [|b l IH]; [reflexivity|].
  cbn [SHA256.hex String.length List.length]. rewrite IH. lia.
Qed.

Lemma hmac_sha256_hex_length (secret message : string) :
  String.length (hmac_sha256_hex secret message) = 64%nat.
Proof.
  unfold hmac_sha256_hex, SHA256.hmac. now rewrite hex_length, sha256_length.
Qed.

(** ** The OAuth callback, path by path *)

Lemma stringify_token (w : world) (req : request) (tokenJson : value) :
  JSON_stringify (token_object w req tokenJson)
  = Some (text_of (token_object w req tokenJson)).
Proof.
  reflexivity.
Qed.

Lemma auth_callback_run (w : world) (env : process_env) (req : request) (d : disk) :
  run (Server.auth_callback w env req) d =
    let quiet r := {| responded := inr r; disk_after := d; events := [] |} in
    if negb (env_ready env) then quiet (send 500 "Missing env vars for OAuth")
    else
      match Server.verifyHmac w (query req) (Server.API_SECRET env) with
      | inl e => quiet (callback_error w e)
      | inr false => quiet (send 400 "HMAC verification failed")
      | inr true =>
          if negb (truthy (get (VObj (query req)) "shop")
                   && truthy (get (VObj (query req)) "code"))
          then quiet (send 400 "Missing shop or code")
          else
            match exchange env req with
            | inl e => quiet (callback_error w e)
            | inr c =>
                match network w c with
                | inl e => {| responded := inr (callback_error w e);
                              disk_after := d;
                              events := [Fetched c] |}
                | inr resp => after_exchange w req d c resp
                end
            end
      end.
Proof.
  unfold run, Server.auth_callback, try_catch, Server.auth_callback_try, env_ready.
  rewrite !negb_andb.
  destruct (_ || _ || _ || _); [reflexivity|].
  unfold bind at 1, lift at 1.
  destruct (Server.verifyHmac _ _ _) as [e|[|]]; [reflexivity| |reflexivity].
  cbn [negb].
  destruct (_ || _); [reflexivity|].
  unfold bind at 1, lift at 1. fold (exchange env req).
  destruct (exchange env req) as [e|c]; [reflexivity|].
  unfold bind at 1, fetch, bind at 1, emit, lift at 1.
  cbn [files trace app].
  destruct (network w c) as [e|resp]; [reflexivity|].
  unfold after_exchange, bind at 1, response_json, bind at 1, lift at 1.
  destruct (json_body resp) as [e|j]; [reflexivity|].
  unfold ret at 1. rewrite stringify_parse.
  destruct (ok resp); [|reflexivity].
  cbn [negb]. unfold bind at 1, lift at 1, prop.
  destruct (is_nullish (JSON_parse j)); [reflexivity|].
  unfold bind at 1, lift at 1, bind at 1. fold (token_object w req (JSON_parse j)).
  rewrite (saveToken_run _ _ _ (stringify_token w req (JSON_parse j))).
  cbn [files trace app]. now destruct d.
Qed.

Ltac conjuncts := repeat match goal with |- _ /\ _ => split end.

Lemma nullish_parse (j : json) : is_nullish (JSON_parse j) = true <-> j = JNull.
Proof.
  destruct j; cbn; split; congruence.
Qed.

(** The run of the callback whose every step succeeds. *)
Lemma callback_succeeds (w : world) (env : process_env) (req : request) (d : disk)
  (c : fetch_request) (resp : fetch_response) (j : json) :
  env_ready env = true ->
  Server.verifyHmac w (query req) (Server.API_SECRET env) = inr true ->
  truthy (get (VObj (query req)) "shop") && truthy (get (VObj (query req)) "code") = true ->
  exchange env req = inr c ->
  network w c = inr resp ->
  json_body resp = inr j ->
  ok resp = true ->
  j <> JNull ->
  let o := run (Server.auth_callback w env req) d in
  let text := text_of (token_object w req (JSON_parse j)) in
  responded o = inr (send 200 Server.installed) /\
  writes (events o) = [text] /\
  disk_after o = TokenFile text.
Proof.
  intros Henv Hv Hsc Hc Hnet Hjson Hok Hnull o text. subst o.
  rewrite auth_callback_run. cbv zeta.
  rewrite Henv, Hv, Hsc, Hc, Hnet. unfold after_exchange. rewrite Hjson, Hok. cbn [negb].
  destruct (is_nullish (JSON_parse j)) eqn:Hn; [now apply nullish_parse in Hn|].
  cbv zeta. cbn [responded events disk_after]. now destruct d.
Qed.

(** A path on which the callback writes nothing and does not answer 200. *)
Ltac quiet :=
  unfold callback_error;
  cbn [responded events disk_after writes flat_map app];
  conjuncts;
  try solve [ intros; congruence
            | intros; conjuncts; (reflexivity || congruence)
            | split; [intros H; now contradiction H|intros H; discriminate H] ].

(** C4, as amended: the callback saves a token if and only if the whole
    handshake succeeds. Step by step: a missing variable gives 500;
    variables set and [verifyHmac] false give 400, [verifyHmac] throwing
    gives the 500 of the [catch]; a verified query without shop or code
    gives 400; an exchange that cannot be set up, or that [fetch] rejects,
    gives 500; an exchange answered with a status that is not ok and a JSON
    body gives 400; an answer whose body is not JSON gives 500, whatever its
    status; an ok answer whose JSON body is [null] gives 500; and in each of
    these cases nothing is written. When every step succeeds (the answer is
    ok and its body is JSON other than [null]) the callback writes, once,
    the text of [{shop, access_token, scope, created_at}], which is what the
    file holds afterwards, and responds 200. A token is written exactly
    when the response is the 200; with any other response the disk is as
    before. *)
Theorem token_saved_only_on_success :
  forall (w : world) (env : process_env) (req : request) (d : disk),
    let o := run (Server.auth_callback w env req) d in
    let verified := Server.verifyHmac w (query req) (Server.API_SECRET env) in
    let shop := get (VObj (query req)) "shop" in
    let code := get (VObj (query req)) "code" in
    (env_ready env = false ->
     responded o = inr (send 500 "Missing env vars for OAuth") /\
     events o = [] /\ disk_after o = d)
    /\
    (env_ready env = true -> verified = inr false ->
     responded o = inr (send 400 "HMAC verification failed") /\
     events o = [] /\ disk_after o = d)
    /\
    (env_ready env = true -> forall e, verified = inl e ->
     responded o = inr (callback_error w e) /\
     events o = [] /\ disk_after o = d)
    /\
    (env_ready env = true -> verified = inr true ->
     truthy shop && truthy code = false ->
     responded o = inr (send 400 "Missing shop or code") /\
     events o = [] /\ disk_after o = d)
    /\
    (env_ready env = true -> verified = inr true ->
     truthy shop && truthy code = true ->
     forall e,
       exchange env req = inl e ->
       responded o = inr (callback_error w e) /\
       events o = [] /\ disk_after o = d)
    /\
    (env_ready env = true -> verified = inr true ->
     truthy shop && truthy code = true ->
     forall c e,
       exchange env req = inr c ->
       network w c = inl e ->
       responded o = inr (callback_error w e) /\
       writes (events o) = [] /\ disk_after o = d)
    /\
    (env_ready env = true -> verified = inr true ->
     truthy shop && truthy code = true ->
     forall c resp j,
       exchange env req = inr c ->
       network w c = inr resp -> json_body resp = inr j ->
       ok resp = false ->
       responded o = inr (send 400 ("Token exchange failed: " ++ JSON_text j)) /\
       writes (events o) = [] /\ disk_after o = d)
    /\
    (env_ready env = true -> verified = inr true ->
     truthy shop && truthy code = true ->
     forall c resp e,
       exchange env req = inr c ->
       network w c = inr resp -> json_body resp = inl e ->
       responded o = inr (callback_error w e) /\
       writes (events o) = [] /\ disk_after o = d)
    /\
    (env_ready env = true -> verified = inr true ->
     truthy shop && truthy code = true ->
     forall c resp,
       exchange env req = inr c ->
       network w c = inr resp -> json_body resp = inr JNull ->
       ok resp = true ->
       responded o = inr (callback_error w TypeError_property_of_nullish) /\
       writes (events o) = [] /\ disk_after o = d)
    /\
    (env_ready env = true -> verified = inr true ->
     truthy shop && truthy code = true ->
     forall c resp j,
       exchange env req = inr c ->
       network w c = inr resp -> json_body resp = inr j ->
       ok resp = true -> j <> JNull ->
       responded o = inr (send 200 Server.installed) /\
       exists text,
         JSON_stringify (token_object w req (JSON_parse j)) = Some text /\
         writes (events o) = [text] /\
         disk_after o = TokenFile text)
    /\
    (writes (events o) <> [] <-> responded o = inr (send 200 Server.installed))
    /\
    (responded o <> inr (send 200 Server.installed) -> disk_after o = d)
    /\
    (responded o = inr (send 200 Server.installed) ->
     exists c resp j text,
       env_ready env = true /\ verified = inr true /\
       truthy shop = true /\ truthy code = true /\
       exchange env req = inr c /\
       network w c = inr resp /\ ok resp = true /\
       json_body resp = inr j /\ j <> JNull /\
       JSON_stringify (token_object w req (JSON_parse j)) = Some text /\
       writes (events o) = [text] /\
       disk_after o = TokenFile text).
Proof.
  intros w env req d o verified shop code. subst o.
  rewrite auth_callback_run. cbv zeta. fold verified shop code.
  destruct (env_ready env); cbn [negb]; [|quiet].
  destruct verified as [e|[|]] eqn:Hv; [quiet| |quiet].
  destruct (truthy shop && truthy code) eqn:Hsc; cbn [negb]; [|quiet].
  apply andb_prop in Hsc as Hboth. destruct Hboth as [Hshop Hcode].
  destruct (exchange env req) as [e|c] eqn:Hc; [quiet|].
  destruct (network w c) as [e|resp] eqn:Hnet; [quiet|].
  unfold after_exchange.
  destruct (json_body resp) as [e|j] eqn:Hjson; [quiet|].
  destruct (ok resp) eqn:Hok; cbn [negb]; [|quiet].
  destruct (is_nullish (JSON_parse j)) eqn:Hn.
  { apply nullish_parse in Hn. subst j. quiet. }
  assert (Hnull : j <> JNull) by (intros ->; discriminate).
  cbv zeta. cbn [responded events disk_after].
  set (text := text_of (token_object w req (JSON_parse j))).
  assert (Hw : writes (Fetched c :: match d with
                                    | NoDir => [MadeDir; Wrote text]
                                    | _ => [Wrote text]
                                    end)
               = [text]) by now destruct d.
  rewrite Hw. conjuncts; try solve [intros; congruence].
  - intros _ _ _ c0 resp0 j0 [= <-] Hnet0 Hjson0 _ _.
    rewrite Hnet in Hnet0. injection Hnet0 as <-.
    rewrite Hjson in Hjson0. injection Hjson0 as <-.
    split; [reflexivity|]. exists text. repeat split.
  - split; [reflexivity|discriminate].
  - intros _. exists c, resp, j, text. conjuncts; (assumption || reflexivity).
Qed.

(** C4 on a first installation: the signed callback, answered by the
    platform with a token, ends in the 200 and leaves the token on disk. *)
Lemma token_saved_only_on_success_witness :
  let o := run (Server.auth_callback (answering answer_token) example_env
                  {| query := signed_query; json_sent := None |}) NoDir in
  responded o = inr (send 200 Server.installed) /\
  disk_after o = TokenFile example_token.
Proof.
  intros o.
  destruct (token_saved_only_on_success (answering answer_token) example_env
              {| query := signed_query; json_sent := None |} NoDir)
    as (_ & _ & _ & _ & _ & _ & _ & _ & _ & Hif & _).
  edestruct Hif as (Hr & text & Htext & _ & Hd);
    [reflexivity|vm_compute; reflexivity|reflexivity|reflexivity|reflexivity|reflexivity
    |reflexivity|discriminate|].
  split; [exact Hr|]. fold o in Hd. rewrite Hd. f_equal.
  vm_compute in Htext. now injection Htext as <-.
Defined.

(** C4 as stated fails when the exchange is answered with a status that
    is not ok and a body that is not JSON: reading the body throws before
    the status is looked at, and the answer is the 500 of the [catch], not
    a 400. Nothing is saved. *)
Lemma failed_exchange_without_json :
  let answer := inr {| ok := false; json_body := inl (Rejected "invalid json response body") |} in
  let w := answering answer in
  let req := {| query := signed_query; json_sent := None |} in
  let o := run (Server.auth_callback w example_env req) NoDir in
  (exists c, exchange example_env req = inr c /\ network w c = answer) /\
  responded o = inr (callback_error w (Rejected "invalid json response body")) /\
  disk_after o = NoDir.
Proof.
  vm_compute. repeat split. eexists. split; reflexivity.
Qed.

(** ** [verifyHmac] on a string *)

Lemma In_insert_sorted (k x : string) (l : list string) :
  In x (insert_sorted k l) -> x = k \/ In x l.
Proof.
  induction l as [|y l IH]; cbn.
  - intros [<-|[]]. now left.
  - destruct (code_unit_leb y k); cbn; intuition.
Qed.

Lemma In_sort (x : string) (l : list string) : In x (sort l) -> In x l.
Proof.
  unfold sort.
  assert (H : forall acc, In x (fold_left (fun acc k => insert_sorted k acc) l acc) ->
                          In x l \/ In x acc).
  { induction l as [|k l IH]; cbn; [now right|].
    intros acc Hin. destruct (IH _ Hin) as [H|H]; [now left; right|].
    apply In_insert_sorted in H. intuition. }
  intros Hin. destruct (H [] Hin) as [Hl|[]]. exact Hl.
Qed.

Lemma lookup_all (P : value -> Prop) (k : string) (l : list (string * value)) :
  Forall (fun kv => P (snd kv)) l -> In k (keys l) ->
  exists v, lookup k l = Some v /\ P v.
Proof.
  induction 1 as [|[k' v] l Hv _ IH]; cbn; [intros []|].
  intros Hin. destruct (k' =? k)%string eqn:Hk; [eauto|].
  destruct Hin as [->|Hin]; [now rewrite String.eqb_refl in Hk|auto].
Qed.

Lemma map_result_all {A B : Type} (f : A -> result B) (l : list A) :
  (forall x, In x l -> exists y, f x = inr y) -> exists ys, map_result f l = inr ys.
Proof.
  induction l as [|x l IH]; cbn; [eauto|].
  intros H. destruct (H x (or_introl eq_refl)) as [y ->].
  destruct IH as [ys ->]; [auto|]. cbn. eauto.
Qed.

Lemma all_strings_remove (k : string) (q : list (string * value)) :
  all_strings q -> all_strings (remove k q).
Proof.
  unfold all_strings, remove. rewrite !Forall_forall.
  intros H kv Hin. apply filter_In in Hin as [Hin _]. auto.
Qed.

(** The message can be written when the parameters are strings. *)
Lemma hmac_message_of_strings (rest : list (string * value)) :
  all_strings rest -> exists message, Server.hmac_message rest = inr message.
Proof.
  intros Hall. unfold Server.hmac_message.
  destruct (map_result_all
              (fun key =>
                 text <~ match get (VObj rest) key with
                         | VArr items => Array_join "," items
                         | v => ToString v
                         end ;;
                 inr (key ++ "=" ++ text)%string)
              (sort (keys rest))) as [pairs ->]; [|cbn; eauto].
  intros key Hin. apply In_sort in Hin.
  destruct (lookup_all (fun v => exists s, v = VStr s) key rest Hall Hin)
    as (v & Hv & s & ->).
  cbn [get]. rewrite Hv. cbn. eauto.
Qed.

Lemma timingSafeEqual_digest (secret message given : string) :
  timingSafeEqual (hmac_sha256_hex secret message) given
  = if (String.length given =? 64)%nat
    then inr (hmac_sha256_hex secret message =? given)%string
    else inl RangeError_byte_length.
Proof.
  unfold timingSafeEqual. rewrite hmac_sha256_hex_length.
  now rewrite (Nat.eqb_sym 64).
Qed.

Lemma verifyHmac_string (w : world) (q : list (string * value)) (key s message : string) :
  get (VObj q) "hmac" = VStr s ->
  Server.hmac_message (remove "hmac" q) = inr message ->
  (s = EmptyString -> Server.verifyHmac w q (VStr key) = inr false) /\
  (s <> EmptyString ->
   (String.length s = 64%nat -> exists b, Server.verifyHmac w q (VStr key) = inr b) /\
   (String.length s <> 64%nat ->
    Server.verifyHmac w q (VStr key) = inl RangeError_byte_length)).
Proof.
  intros H Hmessage. unfold Server.verifyHmac. rewrite H, Hmessage. cbn [truthy]. split.
  - intros ->. reflexivity.
  - intros Hs. apply String.eqb_neq in Hs. rewrite Hs.
    cbn [negb createHmac_digest and_then Buffer_from].
    rewrite timingSafeEqual_digest. split; intros Hlen.
    + rewrite Hlen. cbn. eauto.
    + apply Nat.eqb_neq in Hlen. now rewrite Hlen.
Qed.

(** C9, as amended: with the variables set, [verifyHmac] returns false
    when the [hmac] parameter is absent or empty. On a string [hmac], the
    other parameters being such that the message can be written, it returns
    a boolean exactly when the string is empty or has 64 bytes; on a
    non-empty string of any other length [crypto.timingSafeEqual] throws,
    the callback answers 500 "Server error: ..." rather than the 400 of a
    failed verification, nothing is sent and no token is saved. *)
Theorem verifyHmac_throws_on_other_lengths :
  forall (w : world) (env : process_env) (req : request) (d : disk) (message : string),
    env_ready env = true ->
    Server.hmac_message (remove "hmac" (query req)) = inr message ->
    let hmac := get (VObj (query req)) "hmac" in
    let verified := Server.verifyHmac w (query req) (Server.API_SECRET env) in
    let o := run (Server.auth_callback w env req) d in
    (truthy hmac = false -> verified = inr false) /\
    (forall s : string,
        hmac = VStr s ->
        ((exists b, verified = inr b) <-> s = EmptyString \/ String.length s = 64%nat) /\
        (s <> EmptyString -> String.length s <> 64%nat ->
         verified = inl RangeError_byte_length /\
         responded o = inr (callback_error w RangeError_byte_length) /\
         events o = [] /\
         disk_after o = d)).
Proof.
  intros w env req d message Henv Hmessage hmac verified o. split.
  - intros Hfalsy. subst verified. unfold Server.verifyHmac. fold hmac.
    now rewrite Hfalsy.
  - intros s Hs.
    assert (Hkey : exists key, Server.API_SECRET env = VStr key).
    { unfold env_ready in Henv.
      destruct (truthy (Server.API_SECRET env)) eqn:Hsecret; [|discriminate].
      exact (getenv_truthy env "SHOPIFY_API_SECRET" Hsecret). }
    destruct Hkey as [key Hkey].
    destruct (verifyHmac_string w (query req) key s message Hs Hmessage) as [Hempty Hfull].
    subst verified. rewrite Hkey. split.
    + split.
      * intros [b Hb]. destruct (string_dec s EmptyString) as [|Hne]; [now left|].
        right. destruct (Nat.eq_dec (String.length s) 64) as [|Hlen]; [assumption|].
        destruct (Hfull Hne) as [_ Hthrow]. rewrite (Hthrow Hlen) in Hb. discriminate.
      * intros [->|Hlen]; [rewrite (Hempty eq_refl); eauto|].
        destruct (string_dec s EmptyString) as [->|Hne]; [discriminate|].
        now apply (Hfull Hne).
    + intros Hne Hlen. destruct (Hfull Hne) as [_ Hthrow].
      specialize (Hthrow Hlen). split; [exact Hthrow|].
      subst o. rewrite auth_callback_run. cbv zeta.
      rewrite Henv, Hkey, Hthrow. now cbn.
Qed.

(** C9 on a callback whose [hmac] is three characters long. *)
Lemma verifyHmac_throws_on_other_lengths_witness :
  let w := answering answer_token in
  let req := {| query := [("code", VStr "c0de"); ("hmac", VStr "abc");
                          ("shop", VStr "s.myshopify.com")];
                json_sent := None |} in
  let o := run (Server.auth_callback w example_env req) NoDir in
  Server.verifyHmac w (query req) (Server.API_SECRET example_env)
  = inl RangeError_byte_length /\
  responded o = inr (callback_error w RangeError_byte_length) /\
  events o = [] /\
  disk_after o = NoDir.
Proof.
  intros w req o.
  destruct (verifyHmac_throws_on_other_lengths w example_env req NoDir
              "code=c0de&shop=s.myshopify.com" eq_refl eq_refl)
    as [_ H].
  destruct (H "abc" eq_refl) as [_ Hthrow].
  apply Hthrow; [discriminate|].
  cbn. discriminate.
Defined.

(** C9 as stated fails on an empty [hmac] (the query "?hmac=&shop=..."):
    its length is not 64, yet [verifyHmac] returns a boolean, false, and
    the callback answers the 400 of a failed verification, not a 500. *)
Lemma empty_hmac_is_refused_not_thrown :
  let w := answering answer_token in
  let req := {| query := [("code", VStr "c0de"); ("hmac", VStr EmptyString);
                          ("shop", VStr "s.myshopify.com")];
                json_sent := None |} in
  String.length EmptyString <> 64%nat /\
  Server.verifyHmac w (query req) (Server.API_SECRET example_env) = inr false /\
  responded (run (Server.auth_callback w example_env req) NoDir)
  = inr (send 400 "HMAC verification failed").
Proof.
  repeat split. discriminate.
Qed.

(** ** The model of the library, on known values *)

(** FIPS 180-4, "abc"; and RFC 4231, test case 2. *)
Example sha256_abc :
  SHA256.hex (SHA256.sha256 (SHA256.bytes_of_string "abc"))
  = "ba7816bf8f01cfea414140de5dae2223b00361a396177a9cb410ff61f20015ad".
Proof.
  vm_compute. reflexivity.
Qed.

Example hmac_sha256_rfc4231_2 :
  hmac_sha256_hex "Jefe" "what do ya want for nothing?"
  = "5bdcc146bf60754e6a042426089575c75a003f089d2739839dec58b964ec3843".
Proof.
  vm_compute. reflexivity.
Qed.

Example signed_query_verifies :
  Server.verifyHmac unreachable signed_query (VStr "hush") = inr true.
Proof.
  vm_compute. reflexivity.
Qed.

Example trim_example :
  trim (string_of_codes [32; 9; 194; 160; 78; 111; 117; 114; 227; 128; 128; 10]) = "Nour".
Proof.
  reflexivity.
Qed.

Example sort_example :
  sort ["shop"; "code"; "timestamp"; "host"; "state"]
  = ["code"; "host"; "shop"; "state"; "timestamp"].
Proof.
  reflexivity.
Qed.

(** [String(n)]: every digit below two to the 53; above, the shortest
    digits that are read as the same double, with zeros up to 21 digits and
    an exponent beyond. *)
Example Number_toString_examples :
  map Number_toString
    [ 0; -45; 9007199254740991; 9007199254740993; 1152921504606846976;
      123456789012345678901; 1000000000000000000000; -1000000000000000000000;
      1180591620717411303424; 100000000000000000000000 ]%Z
  = [ "0"; "-45"; "9007199254740991"; "9007199254740992"; "1152921504606847000";
      "123456789012345680000"; "1e+21"; "-1e+21";
      "1.1805916207174113e+21"; "1e+23" ].
Proof.
  vm_compute. reflexivity.
Qed.

(** A logged-in customer whose first name is a number: [.trim] is not a
    function of it, the exception is caught, and nothing is sent. *)
Example numeric_name_is_a_server_error :
  let req := {| query := [];
                json_sent :=
                  Some (JObj [ ("phone", JStr "0100 555 0100");
                               ("product", JObj [("title", JStr "Mug");
                                                 ("url", JStr "/products/mug")]);
                               ("customer", JObj [("logged_in", JBool true);
                                                  ("first_name", JNum 7)]) ]) |} in
  let o := run (Server.customization_request unreachable example_env req)
             (TokenFile example_token) in
  responded o = inr (server_error unreachable TypeError_not_a_function) /\
  events o = [].
Proof.
  split; reflexivity.
Qed.

(** A phone that is an object with a [toString] of its own cannot be
    written into the note: the exception is caught, and nothing is sent. *)
Example unprintable_phone_is_a_server_error :
  let req := {| query := [];
                json_sent :=
                  Some (JObj [ ("phone", JObj [("toString", JNum 1)]);
                               ("product", JObj [("title", JStr "Mug");
                                                 ("url", JStr "/products/mug")]) ]) |} in
  let o := run (Server.customization_request unreachable example_env req)
             (TokenFile example_token) in
  complete (submitted req) = true /\
  responded o = inr (server_error unreachable TypeError_to_primitive) /\
  events o = [].
Proof.
  repeat split.
Qed.

(** A phone that is a number is forwarded as it is, and written into the
    note in decimal. *)
Example numeric_phone_is_forwarded :
  let req := {| query := [];
                json_sent :=
                  Some (JObj [ ("phone", JNum 201005550100);
                               ("product", JObj [("title", JStr "Mug");
                                                 ("url", JStr "/products/mug")]) ]) |} in
  let o := run (Static.customization_request (answering answer_created) example_env req)
             NoDir in
  map (fun c => match body c with
                | Some text => get (get (get (JSON_parse text) "variables") "input") "note"
                | None => VUndefined
                end) (requests (events o))
  = [VStr (join newline [ "Customization request"; "Product: Mug"; "Link: /products/mug";
                          "Phone: 201005550100"; "Customer: Guest (not logged in)" ])] /\
  responded o = inr (send_json 200 (VObj [("ok", VBool true); ("draft_name", VStr "#D1")])).
Proof.
  split; reflexivity.
Qed.

(** * Further properties of the handlers and the helpers *)

(** ** The platform's answer *)

Lemma submit_with_ok (b : bool) (w : world) (env : process_env) (req : request) (d : disk) :
  caught (with_ok b w) (Server.submit (with_ok b w) env req (fresh d))
  = caught w (Server.submit w env req (fresh d)).
Proof.
  rewrite !submit_run.
  destruct (negb _); [reflexivity|].
  destruct (negb _); [reflexivity|].
  destruct (input_of req) as [e|input]; [reflexivity|].
  destruct (server_call _ _ _) as [e|c]; [reflexivity|].
  cbn [network with_ok].
  destruct (network w c) as [e|resp]; [reflexivity|].
  cbn [json_body].
  destruct (json_body resp) as [e|j]; reflexivity.
Qed.

(** Neither submission handler reads the status of the platform's answer:
    with the [ok] flag of every answer set to true, or to false, the run
    is the same. Only the JSON body decides the response. *)
Theorem platform_status_is_not_read :
  forall (b : bool) (w : world) (env : process_env) (req : request) (d : disk),
    run (Server.customization_request (with_ok b w) env req) d
    = run (Server.customization_request w env req) d /\
    run (Static.customization_request (with_ok b w) env req) d
    = run (Static.customization_request w env req) d.
Proof.
  intros b w env req d. split.
  - rewrite !server_run, !server_try_run.
    destruct (strict_eq_string _ _); [|apply submit_with_ok].
    destruct (Server.verifyAppProxy _ _) as [e|[|]]; [reflexivity|apply submit_with_ok|reflexivity].
  - rewrite !static_run, !static_try_run.
    destruct (negb _); [reflexivity|].
    destruct (negb _); [reflexivity|].
    destruct (input_of req) as [e|input]; [reflexivity|].
    destruct (Static.graphql_request _ _) as [e|c]; [reflexivity|].
    cbn [network with_ok].
    destruct (network w c) as [e|resp]; [reflexivity|].
    cbn [json_body].
    destruct (json_body resp) as [e|j]; reflexivity.
Qed.

(** ** An answer without a result; a variant without its variables *)

Lemma reply_without_result (json : value) :
  is_nullish (get (get json "data") "draftOrderCreate") = true ->
  server_reply json = inr created_without_name /\
  static_reply json = inr created_without_name.
Proof.
  unfold server_reply, static_reply.
  destruct (get (get json "data") "draftOrderCreate"); try discriminate; split; reflexivity.
Qed.

(** When the platform's answer to the handler's call is JSON without
    [data.draftOrderCreate] (it is absent or [null], as in an answer that
    carries only top-level [errors]), both variants respond 200 with [ok]
    true and a [draft_name] that is [undefined]. *)
Theorem answer_without_result_is_reported_created :
  forall (w : world) (env : process_env) (req : request) (d : disk)
         (c : fetch_request) (resp : fetch_response) (j : json),
    network w c = inr resp ->
    json_body resp = inr j ->
    is_nullish (get (get (JSON_parse j) "data") "draftOrderCreate") = true ->
    (requests (events (run (Server.customization_request w env req) d)) = [c] ->
     responded (run (Server.customization_request w env req) d) = inr created_without_name)
    /\
    (requests (events (run (Static.customization_request w env req) d)) = [c] ->
     responded (run (Static.customization_request w env req) d) = inr created_without_name).
Proof.
  intros w env req d c resp j Hnet Hjson Hnone.
  destruct (reply_without_result _ Hnone) as [Hserver Hstatic]. split.
  - destruct (server_outcome w env req d) as [_ [[Hev _]|(input & c0 & _ & _ & Hev & Hr)]];
      rewrite Hev; cbn [requests flat_map app]; [discriminate|].
    intros [= ->]. rewrite Hr. unfold settle. now rewrite Hnet, Hjson, Hserver.
  - destruct (static_outcome w env req d) as [_ [[Hev _]|(input & c0 & _ & _ & Hev & Hr)]];
      rewrite Hev; cbn [requests flat_map app]; [discriminate|].
    intros [= ->]. rewrite Hr. unfold settle. now rewrite Hnet, Hjson, Hstatic.
Qed.

(** An answer refusing the access token, with a status that is not ok:
    both variants respond 200. *)
Lemma answer_without_result_is_reported_created_witness :
  let answer := inr {| ok := false;
                       json_body :=
                         inr (JObj [("errors", JStr "[API] Invalid API key or access token")]) |} in
  let w := answering answer in
  responded (run (Server.customization_request w example_env example_request)
               (TokenFile example_token))
  = inr created_without_name /\
  responded (run (Static.customization_request w example_env example_request) NoDir)
  = inr created_without_name.
Proof.
  intros answer w. split.
  - epose proof (answer_without_result_is_reported_created w example_env example_request
                   (TokenFile example_token) _ _ _ eq_refl eq_refl eq_refl) as [H _].
    apply H. reflexivity.
  - epose proof (answer_without_result_is_reported_created w example_env example_request
                   NoDir _ _ _ eq_refl eq_refl eq_refl) as [_ H].
    apply H. reflexivity.
Defined.

Lemma settle_not_misconfigured (w : world) (answer : result fetch_response) :
  settle w static_reply answer <> misconfigured.
Proof.
  unfold settle, misconfigured, server_error.
  destruct answer as [e|resp]; [discriminate|].
  destruct (json_body resp) as [e|j]; [discriminate|].
  destruct (static_reply_cases (JSON_parse j)) as [[e H]|[[b H]|[b H]]];
    rewrite H; discriminate.
Qed.

(** The static-token variant answers 500 "Missing SHOP or ADMIN_TOKEN
    env vars" exactly when SHOP or ADMIN_TOKEN is unset or empty, whatever
    the body; nothing is sent then. *)
Theorem static_variant_needs_its_variables :
  forall (w : world) (env : process_env) (req : request) (d : disk),
    let o := run (Static.customization_request w env req) d in
    (responded o = inr misconfigured <-> configured env = false) /\
    (configured env = false -> events o = [] /\ disk_after o = d).
Proof.
  intros w env req d o. subst o. rewrite static_run, static_try_run.
  destruct (configured env); cbn [negb]; [|repeat split].
  split; [|discriminate]. split; [|discriminate].
  destruct (negb _); [discriminate|].
  destruct (input_of req) as [e|input]; [discriminate|].
  destruct (Static.graphql_request _ _) as [e|c]; [discriminate|].
  rewrite caught_called. cbn [responded].
  intros [= H]. now apply settle_not_misconfigured in H.
Qed.

(** ** Responses, the environment, guests *)

Lemma settle_status (w : world) (reply : value -> result response)
  (answer : result fetch_response) :
  (forall json, (exists e, reply json = inl e) \/
                (exists body, reply json = inr (send_json 400 body)) \/
                (exists body, reply json = inr (send_json 200 body))) ->
  In (status_of (settle w reply answer)) [200; 400; 500]%Z.
Proof.
  intros Hreply. unfold settle, server_error.
  destruct answer as [e|resp]; [cbn; tauto|].
  destruct (json_body resp) as [e|j]; [cbn; tauto|].
  destruct (Hreply (JSON_parse j)) as [[e H]|[[b H]|[b H]]]; rewrite H; cbn; tauto.
Qed.

(** No exception escapes the three handlers that have a [try]: every run
    ends in a response, whose status is 200, 400, 401 or 500 for the
    submission handler of [server.js], and 200, 400 or 500 for the
    static-token variant and for the callback. *)
Theorem every_request_is_answered :
  forall (w : world) (env : process_env) (req : request) (d : disk),
    (exists r, responded (run (Server.customization_request w env req) d) = inr r /\
               In (status_of r) [200; 400; 401; 500]%Z) /\
    (exists r, responded (run (Static.customization_request w env req) d) = inr r /\
               In (status_of r) [200; 400; 500]%Z) /\
    (exists r, responded (run (Server.auth_callback w env req) d) = inr r /\
               In (status_of r) [200; 400; 500]%Z).
Proof.
  intros w env req d. repeat split.
  - rewrite server_run, server_try_run.
    assert (Hsub : exists r, responded (caught w (Server.submit w env req (fresh d))) = inr r /\
                             In (status_of r) [200; 400; 401; 500]%Z).
    { rewrite submit_run.
      destruct (negb _); [eexists; split; [reflexivity|cbn; tauto]|].
      destruct (negb _); [eexists; split; [reflexivity|cbn; tauto]|].
      destruct (input_of req) as [e|input]; [eexists; split; [reflexivity|cbn; tauto]|].
      destruct (server_call _ _ _) as [e|c]; [eexists; split; [reflexivity|cbn; tauto]|].
      rewrite caught_called. eexists; split; [reflexivity|].
      pose proof (settle_status w server_reply (network w c) server_reply_cases) as H.
      cbn in H |- *. tauto. }
    destruct (strict_eq_string _ _); [|exact Hsub].
    destruct (Server.verifyAppProxy _ _) as [e|[|]];
      [eexists; split; [reflexivity|cbn; tauto]|exact Hsub
      |eexists; split; [reflexivity|cbn; tauto]].
  - rewrite static_run, static_try_run.
    destruct (negb _); [eexists; split; [reflexivity|cbn; tauto]|].
    destruct (negb _); [eexists; split; [reflexivity|cbn; tauto]|].
    destruct (input_of req) as [e|input]; [eexists; split; [reflexivity|cbn; tauto]|].
    destruct (Static.graphql_request _ _) as [e|c]; [eexists; split; [reflexivity|cbn; tauto]|].
    rewrite caught_called. eexists; split; [reflexivity|].
    exact (settle_status w static_reply (network w c) static_reply_cases).
  - rewrite auth_callback_run. cbv zeta.
    destruct (negb _); [eexists; split; [reflexivity|cbn; tauto]|].
    destruct (Server.verifyHmac _ _ _) as [e|[|]];
      [eexists; split; [reflexivity|cbn; tauto]| |eexists; split; [reflexivity|cbn; tauto]].
    destruct (negb _); [eexists; split; [reflexivity|cbn; tauto]|].
    destruct (exchange env req) as [e|c]; [eexists; split; [reflexivity|cbn; tauto]|].
    destruct (network w c) as [e|resp]; [eexists; split; [reflexivity|cbn; tauto]|].
    unfold after_exchange.
    destruct (json_body resp) as [e|j]; [eexists; split; [reflexivity|cbn; tauto]|].
    destruct (negb _); [eexists; split; [reflexivity|cbn; tauto]|].
    destruct (is_nullish _); eexists; split; try reflexivity; cbn; tauto.
Qed.

(** The submission handler of [server.js] reads VERIFY_PROXY,
    SHOPIFY_API_SECRET and API_VER, and no other variable: under two
    environments that agree on these, the run is the same. The shop it
    calls is the stored token's, whatever SHOP is. *)
Theorem submission_reads_three_variables :
  forall (w : world) (env env' : process_env) (req : request) (d : disk),
    getenv env "VERIFY_PROXY" = getenv env' "VERIFY_PROXY" ->
    getenv env "SHOPIFY_API_SECRET" = getenv env' "SHOPIFY_API_SECRET" ->
    getenv env "API_VER" = getenv env' "API_VER" ->
    run (Server.customization_request w env req) d
    = run (Server.customization_request w env' req) d.
Proof.
  intros w env env' req d Hgate Hsecret Hver.
  unfold Server.customization_request, Server.customization_request_try, Server.submit,
    Server.graphql_request, Server.API_SECRET, Server.API_VER.
  now rewrite Hgate, Hsecret, Hver.
Qed.

(** With another SHOP and another HOST, and no API key, the example runs
    as before. *)
Lemma submission_reads_three_variables_witness :
  let env := [("SHOP", "other.myshopify.com"); ("HOST", "https://elsewhere.example")] in
  run (Server.customization_request (answering answer_created) example_env example_request)
    (TokenFile example_token)
  = run (Server.customization_request (answering answer_created)
           (("SHOPIFY_API_SECRET", "hush") :: env) example_request)
      (TokenFile example_token).
Proof.
  intros env.
  apply submission_reads_three_variables; reflexivity.
Defined.

Lemma draftInput_guest (phone product customer : value) :
  truthy (get customer "logged_in") = false ->
  Server.draftInput phone product customer = Server.draftInput phone product VUndefined.
Proof.
  intros H. unfold Server.draftInput, Server.noteLines. rewrite H. reflexivity.
Qed.

(** For a customer who is not logged in, nothing of the [customer] object
    matters: two requests with the same query, phone and product, both
    from guests, have the same run in both variants (the same call, the
    same response). *)
Theorem guest_details_are_not_forwarded :
  forall (w : world) (env : process_env) (req req' : request) (d : disk),
    query req = query req' ->
    get (submitted req) "phone" = get (submitted req') "phone" ->
    get (submitted req) "product" = get (submitted req') "product" ->
    truthy (get (get (submitted req) "customer") "logged_in") = false ->
    truthy (get (get (submitted req') "customer") "logged_in") = false ->
    run (Server.customization_request w env req) d
    = run (Server.customization_request w env req') d /\
    run (Static.customization_request w env req) d
    = run (Static.customization_request w env req') d.
Proof.
  intros w env req req' d Hquery Hphone Hproduct Hguest Hguest'.
  assert (Hcomplete : complete (submitted req) = complete (submitted req'))
    by (unfold complete; now rewrite Hphone, Hproduct).
  assert (Hinput : input_of req = input_of req').
  { unfold input_of. rewrite (draftInput_guest _ _ _ Hguest), (draftInput_guest _ _ _ Hguest').
    now rewrite Hphone, Hproduct. }
  split.
  - rewrite !server_run, !server_try_run, !submit_run.
    unfold Server.verifyAppProxy. now rewrite Hquery, Hcomplete, Hinput.
  - rewrite !static_run, !static_try_run. now rewrite Hcomplete, Hinput.
Qed.

(** A guest's email is not forwarded: the run is that of a request with
    no customer. *)
Lemma guest_details_are_not_forwarded_witness :
  let guest (customer : json) :=
    {| query := [];
       json_sent := Some (JObj [ ("phone", JStr "0100 555 0100");
                                 ("product", JObj [("title", JStr "Mug");
                                                   ("url", JStr "/products/mug")]);
                                 ("customer", customer) ]) |} in
  let w := answering answer_created in
  run (Server.customization_request w example_env
         (guest (JObj [("logged_in", JBool false); ("email", JStr "nour@example.com")])))
    (TokenFile example_token)
  = run (Server.customization_request w example_env (guest JNull)) (TokenFile example_token).
Proof.
  intros guest w.
  apply guest_details_are_not_forwarded; reflexivity.
Defined.

(** ** The note's last line *)

Lemma prop_of_string (v : value) (k k' s : string) :
  get v k = VStr s -> prop v k' = inr (get v k').
Proof.
  destruct v; cbn; try discriminate; reflexivity.
Qed.

Lemma ToString_or_empty (v : value) :
  text_or_absent v = true ->
  ToString (or_else v (VStr EmptyString)) = inr (text_or_empty v).
Proof.
  unfold or_else. destruct v as [| |[|]|n|s|l|o]; cbn; try discriminate; try reflexivity.
  - destruct (n =? 0)%Z; cbn; [reflexivity|discriminate].
  - destruct (s =? "")%string eqn:Hs; cbn; [|reflexivity].
    apply String.eqb_eq in Hs as ->. reflexivity.
Qed.

(** The lines of the note, for a phone, a title and a link that are
    strings: the last line is "Customer: Guest (not logged in)" for a
    guest; for a logged-in customer whose names and email are strings (or
    absent) it carries the trimmed names and the email, each empty when
    absent. *)
Theorem note_names_the_customer :
  forall (phone title link : string) (product customer : value),
    get product "title" = VStr title ->
    get product "url" = VStr link ->
    let lines (who : string) : result (list string) :=
      inr [ "Customization request"; ("Product: " ++ title)%string;
            ("Link: " ++ link)%string; ("Phone: " ++ phone)%string; who ] in
    (truthy (get customer "logged_in") = false ->
     Server.noteLines (VStr phone) product customer = lines "Customer: Guest (not logged in)" /\
     Static.noteLines (VStr phone) product customer = lines "Customer: Guest (not logged in)")
    /\
    (truthy (get customer "logged_in") = true ->
     customer_ok customer = true ->
     let who := ("Customer: " ++ trim (text_or_empty (get customer "first_name")) ++ " "
                 ++ trim (text_or_empty (get customer "last_name")) ++ " | "
                 ++ text_or_empty (get customer "email"))%string in
     Server.noteLines (VStr phone) product customer = lines who /\
     Static.noteLines (VStr phone) product customer = lines who).
Proof.
  intros phone title link product customer Htitle Hlink lines.
  unfold Static.noteLines, Server.noteLines.
  rewrite !(prop_of_string _ _ _ _ Htitle), Htitle, Hlink. cbn [and_then ToString].
  split; intros Hin.
  - rewrite Hin. split; reflexivity.
  - unfold customer_ok. rewrite Hin. cbn [negb orb]. intros Hcustomer.
    apply andb_prop in Hcustomer as [Hnames Hemail].
    apply andb_prop in Hnames as [Hfirst Hlast].
    rewrite !(prop_get _ _ _ Hin). cbn [and_then].
    rewrite (trim_or_empty _ Hfirst), (trim_or_empty _ Hlast), (ToString_or_empty _ Hemail).
    split; reflexivity.
Qed.

(** The note of the example request: the first name is trimmed, the last
    name, [null], is empty. *)
Lemma note_names_the_customer_witness :
  Server.noteLines (VStr "0100 555 0100")
    (VObj [("title", VStr "Mug"); ("url", VStr "/products/mug")])
    (VObj [("logged_in", VBool true); ("first_name", VStr " Nour "); ("last_name", VNull);
           ("email", VStr "nour@example.com")])
  = inr [ "Customization request"; "Product: Mug"; "Link: /products/mug";
          "Phone: 0100 555 0100"; "Customer: Nour  | nour@example.com" ].
Proof.
  apply (note_names_the_customer "0100 555 0100" "Mug" "/products/mug"
           (VObj [("title", VStr "Mug"); ("url", VStr "/products/mug")])
           (VObj [("logged_in", VBool true); ("first_name", VStr " Nour "); ("last_name", VNull);
                  ("email", VStr "nour@example.com")]) eq_refl eq_refl);
    reflexivity.
Defined.

(** ** The callback's call, and the token it leaves *)

Lemma exchange_made (w : world) (env : process_env) (req : request) (d : disk) :
  let o := run (Server.auth_callback w env req) d in
  requests (events o) = [] \/
  exists c, requests (events o) = [c] /\
            env_ready env = true /\
            Server.verifyHmac w (query req) (Server.API_SECRET env) = inr true /\
            exchange env req = inr c.
Proof.
  intros o. subst o. rewrite auth_callback_run. cbv zeta.
  destruct (env_ready env); cbn [negb]; [|now left].
  destruct (Server.verifyHmac _ _ _) as [e|[|]]; [now left| |now left].
  destruct (negb _); [now left|].
  destruct (exchange env req) as [e|c]; [now left|].
  right. exists c. repeat split.
  destruct (network w c) as [e|resp]; [reflexivity|].
  unfold after_exchange.
  destruct (json_body resp) as [e|j]; [reflexivity|].
  destruct (negb _); [reflexivity|].
  destruct (is_nullish _); [reflexivity|].
  now destruct d.
Qed.

(** The callback makes at most one outbound call, and only with the
    variables set and [verifyHmac] true: the call is the exchange, which
    carries the client secret, and for a [shop] parameter that is a string
    it goes to that shop's /admin/oauth/access_token. *)
Theorem secret_is_sent_only_after_verification :
  forall (w : world) (env : process_env) (req : request) (d : disk),
    let o := run (Server.auth_callback w env req) d in
    (List.length (requests (events o)) <= 1)%nat /\
    (forall c, In c (requests (events o)) ->
               env_ready env = true /\
               Server.verifyHmac w (query req) (Server.API_SECRET env) = inr true /\
               exchange env req = inr c /\
               forall shop : string,
                 get (VObj (query req)) "shop" = VStr shop ->
                 url c = ("https://" ++ shop ++ "/admin/oauth/access_token")%string).
Proof.
  intros w env req d o.
  destruct (exchange_made w env req d) as [Hnone|(c & Hone & Henv & Hv & Hc)];
    fold o in Hnone || fold o in Hone.
  - rewrite Hnone. split; [cbn; lia|intros c []].
  - rewrite Hone. split; [cbn; lia|]. intros c' [<-|[]].
    repeat split; try assumption.
    intros shop Hshop. revert Hc. unfold exchange, Server.token_request.
    rewrite Hshop. cbn [ToString and_then]. now intros [= <-].
Qed.

(** The callback does not read the disk: from any two disks it responds
    the same, makes the same call and writes the same text, and after a 200
    the disk is the same, whatever token was there before. *)
Theorem installing_again_replaces_the_token :
  forall (w : world) (env : process_env) (req : request) (d d' : disk),
    let o := run (Server.auth_callback w env req) d in
    let o' := run (Server.auth_callback w env req) d' in
    responded o = responded o' /\
    requests (events o) = requests (events o') /\
    writes (events o) = writes (events o') /\
    (responded o = inr (send 200 Server.installed) -> disk_after o = disk_after o').
Proof.
  intros w env req d d' o o'. subst o o'. rewrite !auth_callback_run. cbv zeta.
  destruct (negb _); [repeat split; intros [=]|].
  destruct (Server.verifyHmac _ _ _) as [e|[|]];
    [repeat split; intros [=]| |repeat split; intros [=]].
  destruct (negb _); [repeat split; intros [=]|].
  destruct (exchange env req) as [e|c]; [repeat split; intros [=]|].
  destruct (network w c) as [e|resp]; [repeat split; intros [=]|].
  unfold after_exchange, callback_error.
  destruct (json_body resp) as [e|j]; [repeat split; intros [=]|].
  destruct (negb _); [repeat split; intros [=]|].
  destruct (is_nullish _); [repeat split; intros [=]|].
  cbn [responded events disk_after]. repeat split; now destruct d, d'.
Qed.

Lemma stored_token (w : world) (req : request) (tokenJson : value) (shop token : string) :
  get (VObj (query req)) "shop" = VStr shop ->
  get tokenJson "access_token" = VStr token ->
  let tok := stored (TokenFile (text_of (token_object w req tokenJson))) in
  get tok "shop" = VStr shop /\
  get tok "access_token" = VStr token /\
  get tok "created_at" = VStr (clock w).
Proof.
  intros Hshop Htoken. unfold token_object, text_of. rewrite Hshop, Htoken.
  cbn [JSON_stringify]. destruct (JSON_stringify (get tokenJson "scope")); repeat split.
Qed.

(** After a callback that answered 200, [loadToken] returns a token whose
    [shop] is the query's, whose [access_token] is the exchange's and whose
    [created_at] is the clock's; the call [server.js] then sets up for a
    submission goes to that shop with that token. *)
Theorem installed_token_is_loaded :
  forall (w : world) (env : process_env) (req : request) (d : disk)
         (c : fetch_request) (resp : fetch_response) (j : json) (shop token : string),
    let o := run (Server.auth_callback w env req) d in
    responded o = inr (send 200 Server.installed) ->
    exchange env req = inr c ->
    network w c = inr resp ->
    json_body resp = inr j ->
    get (VObj (query req)) "shop" = VStr shop ->
    get (JSON_parse j) "access_token" = VStr token ->
    exists tok,
      Server.loadToken (fresh (disk_after o)) = (inr tok, fresh (disk_after o)) /\
      get tok "shop" = VStr shop /\
      get tok "access_token" = VStr token /\
      get tok "created_at" = VStr (clock w) /\
      forall (env' : process_env) (input : value),
        server_call env' (disk_after o) input
        = inr (draft_order_call shop (api_version env') token input).
Proof.
  intros w env req d c resp j shop token o Hdone Hc Hnet Hjson Hshop Htoken.
  assert (Hdisk : disk_after o = TokenFile (text_of (token_object w req (JSON_parse j)))).
  { subst o. revert Hdone. rewrite auth_callback_run. cbv zeta.
    destruct (negb _); [discriminate|].
    destruct (Server.verifyHmac _ _ _) as [e|[|]]; [discriminate| |discriminate].
    destruct (negb _); [discriminate|].
    rewrite Hc, Hnet. unfold after_exchange, callback_error. rewrite Hjson.
    destruct (negb _); [discriminate|].
    destruct (is_nullish _); [discriminate|reflexivity]. }
  rewrite Hdisk.
  destruct (stored_token w req (JSON_parse j) shop token Hshop Htoken) as (Hs & Ht & Hat).
  eexists. split; [apply loadToken_run|]. cbn [fresh files].
  repeat split; try assumption.
  intros env' input. now apply server_call_ok.
Qed.

(** The example installation, then [loadToken]. *)
Lemma installed_token_is_loaded_witness :
  let req := {| query := signed_query; json_sent := None |} in
  let o := run (Server.auth_callback (answering answer_token) example_env req) NoDir in
  exists tok,
    Server.loadToken (fresh (disk_after o)) = (inr tok, fresh (disk_after o)) /\
    get tok "shop" = VStr "s.myshopify.com" /\
    get tok "access_token" = VStr "shpat_1".
Proof.
  intros req o.
  assert (Hdone : responded o = inr (send 200 Server.installed)) by (vm_compute; reflexivity).
  epose proof (installed_token_is_loaded (answering answer_token) example_env req NoDir
                 _ _ _ "s.myshopify.com" "shpat_1" Hdone eq_refl eq_refl eq_refl eq_refl eq_refl)
    as (tok & Hload & Hshop & Htoken & _).
  exists tok. split; [exact Hload|]. split; assumption.
Defined.

(** ** An installation that leaves no access token *)

Lemma stringify_falsy (v : value) :
  truthy v = false ->
  match JSON_stringify v with
  | Some j => truthy (JSON_parse j) = false
  | None => True
  end.
Proof.
  destruct v as [| |[|]|n|s|l|o]; cbn; try discriminate; auto.
Qed.

Lemma stored_without_access_token (w : world) (req : request) (tokenJson : value) :
  truthy (get tokenJson "access_token") = false ->
  truthy (get (stored (TokenFile (text_of (token_object w req tokenJson)))) "access_token")
  = false.
Proof.
  intros H. apply stringify_falsy in H.
  unfold token_object, text_of, stored. cbn [JSON_stringify].
  destruct (JSON_stringify (get (VObj (query req)) "shop")),
    (JSON_stringify (get tokenJson "access_token")),
    (JSON_stringify (get tokenJson "scope")); cbn; auto.
Qed.

(** The callback does not look for [access_token] in the exchange's
    answer: when every step succeeds and the ok answer, an object, has none
    (or a falsy one), the callback still answers 200, and the token it
    leaves is no token for the submission handler, which sends nothing and,
    past its signature gate, answers 401 "App not installed / token
    missing". *)
Theorem installation_without_access_token_is_unusable :
  forall (w : world) (env : process_env) (req : request) (d : disk)
         (c : fetch_request) (resp : fetch_response) (j : json),
    let o := run (Server.auth_callback w env req) d in
    env_ready env = true ->
    Server.verifyHmac w (query req) (Server.API_SECRET env) = inr true ->
    truthy (get (VObj (query req)) "shop") && truthy (get (VObj (query req)) "code") = true ->
    exchange env req = inr c ->
    network w c = inr resp ->
    json_body resp = inr j ->
    ok resp = true ->
    j <> JNull ->
    truthy (get (JSON_parse j) "access_token") = false ->
    responded o = inr (send 200 Server.installed) /\
    forall (w' : world) (env' : process_env) (req' : request),
      let o' := run (Server.customization_request w' env' req') (disk_after o) in
      events o' = [] /\
      (gate_passes env' req' -> responded o' = inr token_missing).
Proof.
  intros w env req d c resp j o Henv Hv Hsc Hc Hnet Hjson Hok Hnull Hnone.
  destruct (callback_succeeds w env req d c resp j Henv Hv Hsc Hc Hnet Hjson Hok Hnull)
    as (Hdone & _ & Hdisk).
  fold o in Hdone, Hdisk. split; [exact Hdone|].
  intros w' env' req' o'.
  pose proof (stored_without_access_token w req (JSON_parse j) Hnone) as Htok.
  rewrite <- Hdisk in Htok.
  split.
  - exact (proj1 (server_refusal w' env' req' (disk_after o) (or_introl Htok))).
  - intros Hgate. subst o'.
    rewrite server_run, (server_try_passed _ _ _ _ Hgate), submit_run.
    cbn [fresh files]. now rewrite Htok.
Qed.

(** An exchange answered with ok and an error object: 200 from the
    callback, then 401 from the submission handler. *)
Lemma installation_without_access_token_is_unusable_witness :
  let answer := inr {| ok := true;
                       json_body := inr (JObj [("error", JStr "invalid_request")]) |} in
  let w := answering answer in
  let o := run (Server.auth_callback w example_env
                  {| query := signed_query; json_sent := None |}) NoDir in
  responded o = inr (send 200 Server.installed) /\
  responded (run (Server.customization_request w example_env example_request) (disk_after o))
  = inr token_missing.
Proof.
  intros answer w o.
  edestruct (installation_without_access_token_is_unusable w example_env
               {| query := signed_query; json_sent := None |} NoDir)
    as [Hdone Hthen];
    [reflexivity|vm_compute; reflexivity|reflexivity|reflexivity|reflexivity|reflexivity
    |reflexivity|discriminate|reflexivity|].
  split; [exact Hdone|].
  apply (Hthen w example_env example_request). now left.
Defined.

(** ** Starting OAuth *)

Lemma unreserved_hex_digit (n : N) : unreserved (SHA256.hex_digit n) = true.
Proof.
  unfold SHA256.hex_digit.
  destruct (N.to_nat n) as [|[|[|[|[|[|[|[|[|[|[|[|[|[|[|[|m]]]]]]]]]]]]]]]]; reflexivity.
Qed.

Lemma encodeURIComponent_hex (l : list N) :
  encodeURIComponent (SHA256.hex l) = SHA256.hex l.
Proof.
  induction l as [|b l IH]; [reflexivity|].
  cbn [SHA256.hex encodeURIComponent]. now rewrite !unreserved_hex_digit, IH.
Qed.

Lemma nonempty_eqb (s : string) : s <> EmptyString -> (s =? "")%string = false.
Proof.
  intros H. now apply String.eqb_neq.
Qed.

Lemma SCOPES_string (env : process_env) :
  Server.SCOPES env = VStr (scopes env) /\ scopes env <> EmptyString.
Proof.
  unfold scopes, Server.SCOPES, or_else, getenv.
  destruct (lookup "SCOPES" env) as [s|]; [|split; [reflexivity|discriminate]].
  cbn. destruct (s =? "")%string eqn:Hs; cbn; [split; [reflexivity|discriminate]|].
  split; [reflexivity|]. now apply String.eqb_neq.
Qed.

(** [/auth] answers 500, sets no cookie and redirects nowhere when SHOP,
    SHOPIFY_API_KEY or HOST is missing. Otherwise, for a [shop] parameter
    that is a string (or absent), it sets the cookie [oauth_state] to 32
    hexadecimal digits and redirects to the authorize page of the shop of
    the query, or of SHOP when the query names none, with [client_id],
    [scope], [redirect_uri] and the same [state], in this order, none left
    out. *)
Theorem auth_redirects_with_a_state :
  forall (env : process_env) (req : request) (random : string),
    (auth_ready env = false ->
     Server.auth env req random
     = {| cookies := [];
          finished := inr (replied (send 500 "Missing SHOP / SHOPIFY_API_KEY / HOST env vars")) |})
    /\
    (forall shop key host target : string,
        lookup "SHOP" env = Some shop -> shop <> EmptyString ->
        lookup "SHOPIFY_API_KEY" env = Some key -> key <> EmptyString ->
        lookup "HOST" env = Some host -> host <> EmptyString ->
        String.length random = 16%nat ->
        or_else (get (VObj (query req)) "shop") (VStr shop) = VStr target ->
        let state := SHA256.hex (SHA256.bytes_of_string random) in
        String.length state = 32%nat /\
        Server.auth env req random
        = {| cookies := [("oauth_state", state)];
             finished :=
               inr (redirected
                      ("https://" ++ target ++ "/admin/oauth/authorize?client_id="
                       ++ encodeURIComponent key
                       ++ "&scope=" ++ encodeURIComponent (scopes env)
                       ++ "&redirect_uri=" ++ encodeURIComponent (host ++ "/auth/callback")
                       ++ "&state=" ++ state)%string) |}).
Proof.
  intros env req random. split.
  - unfold auth_ready, Server.auth. rewrite !andb_false_iff, <- !negb_true_iff.
    intros [[H|H]|H]; rewrite H; now rewrite ?orb_true_r.
  - intros shop key host target Hshop Hs Hkey Hk Hhost Hh Hlen Htarget state.
    split.
    { subst state. rewrite hex_length. unfold SHA256.bytes_of_string.
      rewrite length_map. clear - Hlen.
      assert (H : forall s, List.length (list_ascii_of_string s) = String.length s)
        by (induction s; cbn; congruence).
      rewrite H, Hlen. reflexivity. }
    destruct (SCOPES_string env) as [Hscopes Hsc].
    unfold Server.auth, Server.SHOP, Server.API_KEY, Server.HOST, getenv.
    rewrite Hshop, Hkey, Hhost, !nonempty_truthy by assumption.
    cbn [negb orb]. rewrite Htarget. fold state. cbn [ToString and_then].
    f_equal. unfold Server.buildQueryString. rewrite Hscopes.
    cbn [filter snd]. rewrite !nonempty_eqb; try assumption.
    + cbn [negb map_result and_then ToString]. subst state.
      rewrite encodeURIComponent_hex. reflexivity.
    + subst state. destruct random as [|c r]; [discriminate|]. discriminate.
    + destruct host; discriminate.
Qed.

(** [/auth?shop=other.myshopify.com] on the example environment. *)
Lemma auth_redirects_with_a_state_witness :
  let req := {| query := [("shop", VStr "other.myshopify.com")]; json_sent := None |} in
  Server.auth example_env req "0123456789abcdef"
  = {| cookies := [("oauth_state", "30313233343536373839616263646566")];
       finished :=
         inr (redirected
                ("https://other.myshopify.com/admin/oauth/authorize"
                 ++ "?client_id=client-id&scope=write_draft_orders%2Cread_customers"
                 ++ "&redirect_uri=https%3A%2F%2Frelay.example%2Fauth%2Fcallback"
                 ++ "&state=30313233343536373839616263646566")%string) |}.
Proof.
  intros req.
  exact (proj2 (proj2 (auth_redirects_with_a_state example_env req "0123456789abcdef")
                  "s.myshopify.com" "client-id" "https://relay.example" "other.myshopify.com"
                  eq_refl ltac:(discriminate) eq_refl ltac:(discriminate)
                  eq_refl ltac:(discriminate) eq_refl eq_refl)).
Defined.

(** ** Query strings *)

Lemma every_app (p : ascii -> bool) (a b : string) :
  every p (a ++ b) = every p a && every p b.
Proof.
  induction a as [|c a IH]; [reflexivity|]. cbn. now rewrite IH, andb_assoc.
Qed.

Lemma every_weaken (p q : ascii -> bool) (s : string) :
  (forall c, p c = true -> q c = true) -> every p s = true -> every q s = true.
Proof.
  intros Hpq. induction s as [|c s IH]; [reflexivity|]. cbn.
  intros H. apply andb_prop in H as [Hc Hs]. now rewrite (Hpq _ Hc), IH.
Qed.

Lemma unreserved_HEX_digit (n : N) : unreserved (HEX_digit n) = true.
Proof.
  unfold HEX_digit.
  destruct (N.to_nat n) as [|[|[|[|[|[|[|[|[|[|[|[|[|[|[|[|m]]]]]]]]]]]]]]]]; reflexivity.
Qed.

Lemma encodeURIComponent_safe (s : string) :
  every (fun c => unreserved c || Ascii.eqb c "%") (encodeURIComponent s) = true.
Proof.
  induction s as [|c s IH]; [reflexivity|]. cbn [encodeURIComponent].
  destruct (unreserved c) eqn:Hc; cbn [every].
  - now rewrite Hc, IH.
  - now rewrite !unreserved_HEX_digit, IH.
Qed.

Lemma encodeURIComponent_url_safe (s : string) : every url_safe (encodeURIComponent s) = true.
Proof.
  apply (every_weaken (fun c => unreserved c || Ascii.eqb c "%")); [|apply encodeURIComponent_safe].
  intros c. unfold url_safe. cbn [existsb].
  destruct (unreserved c); [reflexivity|]. cbn. now intros ->.
Qed.

Lemma join_safe (p : ascii -> bool) (sep : string) (l : list string) :
  every p sep = true -> Forall (fun s => every p s = true) l -> every p (join sep l) = true.
Proof.
  intros Hsep. induction 1 as [|s l Hs Hl IH]; [reflexivity|].
  cbn [join]. destruct l as [|s' l']; [exact Hs|].
  now rewrite !every_app, Hs, Hsep, IH.
Qed.

Lemma map_result_Forall {A B : Type} (P : B -> Prop) (f : A -> result B) (l : list A) :
  (forall x y, f x = inr y -> P y) ->
  forall ys, map_result f l = inr ys -> Forall P ys.
Proof.
  intros Hf. induction l as [|x l IH]; cbn [map_result]; intros ys H.
  - injection H as <-. constructor.
  - destruct (f x) as [e|y] eqn:Hy; [discriminate|]. cbn [and_then] in H.
    destruct (map_result f l) as [e|ys'] eqn:Hys; [discriminate|]. cbn [and_then] in H.
    injection H as <-. constructor; eauto.
Qed.

(** Whatever the parameters, the string [buildQueryString] returns is
    made of unreserved characters, percent signs, and the equals signs and
    ampersands that separate names, values and pairs. *)
Theorem query_string_is_url_safe :
  forall (params : list (string * value)) (qs : string),
    Server.buildQueryString params = inr qs -> every url_safe qs = true.
Proof.
  intros params qs. unfold Server.buildQueryString.
  destruct (map_result _ _) as [e|pairs] eqn:Hpairs; [discriminate|].
  cbn [and_then]. intros [= <-].
  apply join_safe; [reflexivity|].
  refine (map_result_Forall _ _ _ _ _ Hpairs).
  intros [k v] y.
  destruct (ToString v) as [e|text]; [discriminate|]. cbn [and_then]. intros [= <-].
  rewrite every_app, encodeURIComponent_url_safe. cbn [every andb].
  now rewrite encodeURIComponent_url_safe.
Qed.

(** A slash and a colon are escaped, an empty value is skipped, a zero is
    kept. *)
Lemma query_string_is_url_safe_witness :
  every url_safe "redirect_uri=https%3A%2F%2Frelay.example%2Fauth%2Fcallback&n=0" = true.
Proof.
  apply (query_string_is_url_safe
           [("redirect_uri", VStr "https://relay.example/auth/callback");
            ("skipped", VStr EmptyString); ("n", VNum 0)]).
  reflexivity.
Defined.

Lemma filter_left_out (k : string) (v : value) (a b : list (string * value)) :
  left_out v ->
  filter (fun kv => match snd kv with
                    | VUndefined | VNull => false
                    | VStr s => negb (s =? "")%string
                    | _ => true
                    end) (a ++ (k, v) :: b)
  = filter (fun kv => match snd kv with
                      | VUndefined | VNull => false
                      | VStr s => negb (s =? "")%string
                      | _ => true
                      end) (a ++ b).
Proof.
  intros [ -> | [ -> | -> ] ]; now rewrite !filter_app.
Qed.

(** A parameter that is [undefined], [null] or the empty string leaves no
    trace in the query string. *)
Theorem absent_parameters_are_left_out :
  forall (a b : list (string * value)) (k : string) (v : value),
    left_out v ->
    Server.buildQueryString (a ++ (k, v) :: b) = Server.buildQueryString (a ++ b).
Proof.
  intros a b k v Hv. unfold Server.buildQueryString. now rewrite (filter_left_out k v a b Hv).
Qed.

Lemma without_not_split (c : ascii) (a b s : string) :
  without c s = true -> s <> (a ++ String c b)%string.
Proof.
  intros H ->. unfold without in H. rewrite every_app in H. cbn in H.
  rewrite Ascii.eqb_refl in H. cbn in H. now rewrite andb_false_r in H.
Qed.

Lemma split_unique (c : ascii) (a a' b b' : string) :
  without c a = true -> without c a' = true ->
  (a ++ String c b = a' ++ String c b')%string -> a = a' /\ b = b'.
Proof.
  revert a'. induction a as [|x a IH]; intros [|x' a'] Ha Ha' H; cbn in *.
  - injection H as <-. now split.
  - injection H as <- _. now rewrite Ascii.eqb_refl in Ha'.
  - injection H as -> _. now rewrite Ascii.eqb_refl in Ha.
  - injection H as <- H. apply andb_prop in Ha as [_ Ha], Ha' as [_ Ha'].
    destruct (IH a' Ha Ha' H) as [-> ->]. now split.
Qed.

Lemma HEX_digit_value (n : N) :
  (n < 16)%N ->
  (let v := N_of_ascii (HEX_digit n) in if v <? 58 then v - 48 else v - 55)%N = n.
Proof.
  intros H.
  assert (Hn : In n [0; 1; 2; 3; 4; 5; 6; 7; 8; 9; 10; 11; 12; 13; 14; 15]%N) by (cbn; lia).
  cbn in Hn. repeat (destruct Hn as [<-|Hn]; [reflexivity|]). contradiction.
Qed.

Lemma HEX_digit_inj (n m : N) :
  (n < 16)%N -> (m < 16)%N -> HEX_digit n = HEX_digit m -> n = m.
Proof.
  intros Hn Hm H. rewrite <- (HEX_digit_value n Hn), <- (HEX_digit_value m Hm). now rewrite H.
Qed.

Lemma N_of_ascii_inj (c c' : ascii) : N_of_ascii c = N_of_ascii c' -> c = c'.
Proof.
  intros H. rewrite <- (ascii_N_embedding c), <- (ascii_N_embedding c'). now rewrite H.
Qed.

Lemma encodeURIComponent_inj (s t : string) :
  encodeURIComponent s = encodeURIComponent t -> s = t.
Proof.
  revert t. induction s as [|c s IH]; intros [|c' t]; cbn [encodeURIComponent].
  - reflexivity.
  - destruct (unreserved c'); discriminate.
  - destruct (unreserved c); discriminate.
  - destruct (unreserved c) eqn:Hc, (unreserved c') eqn:Hc'.
    + intros [= -> H]. now rewrite (IH _ H).
    + intros [= -> _]. discriminate.
    + intros [= <- _]. discriminate.
    + intros [= Hhi Hlo H]. rewrite (IH _ H). f_equal.
      pose proof (N_ascii_bounded c) as Hb. pose proof (N_ascii_bounded c') as Hb'.
      apply HEX_digit_inj in Hhi;
        [|apply N.Div0.div_lt_upper_bound; lia|apply N.Div0.div_lt_upper_bound; lia].
      apply HEX_digit_inj in Hlo; [|apply N.mod_lt; lia|apply N.mod_lt; lia].
      apply N_of_ascii_inj.
      rewrite (N.div_mod (N_of_ascii c) 16), (N.div_mod (N_of_ascii c') 16) by lia.
      now rewrite Hhi, Hlo.
Qed.

Lemma encodeURIComponent_without (c : ascii) (s : string) :
  unreserved c = false -> c <> "%"%char -> without c (encodeURIComponent s) = true.
Proof.
  intros Hc Hp. unfold without.
  apply (every_weaken (fun x => unreserved x || Ascii.eqb x "%")); [|apply encodeURIComponent_safe].
  intros x Hx. destruct (Ascii.eqb x c) eqn:Hxc; [|reflexivity].
  apply Ascii.eqb_eq in Hxc as ->. rewrite Hc in Hx. cbn in Hx.
  now apply Ascii.eqb_eq in Hx.
Qed.

Lemma written_inj (p q : string * string) : written p = written q -> p = q.
Proof.
  destruct p as [k v], q as [k' v']. unfold written. cbn [fst snd]. intros H.
  apply split_unique in H as [Hk Hv];
    try (apply encodeURIComponent_without; [reflexivity|discriminate]).
  now rewrite (encodeURIComponent_inj _ _ Hk), (encodeURIComponent_inj _ _ Hv).
Qed.

Lemma written_without (p : string * string) : without "&" (written p) = true.
Proof.
  unfold written, without. rewrite every_app. cbn [append every].
  fold (without "&" (encodeURIComponent (fst p))) (without "&" (encodeURIComponent (snd p))).
  now rewrite !encodeURIComponent_without.
Qed.

Lemma join_written_inj (ps qs : list (string * string)) :
  join "&" (map written ps) = join "&" (map written qs) -> ps = qs.
Proof.
  revert qs. induction ps as [|p ps IH]; intros [|q qs] H.
  - reflexivity.
  - exfalso. cbn [map join] in H. symmetry in H. unfold written in H.
    destruct (map _ qs); destruct (encodeURIComponent (fst q)); discriminate.
  - exfalso. cbn [map join] in H. unfold written in H.
    destruct (map _ ps); destruct (encodeURIComponent (fst p)); discriminate.
  - cbn [map join] in H.
    destruct ps as [|p' ps], qs as [|q' qs]; cbn [map] in H.
    + now rewrite (written_inj _ _ H).
    + exfalso. revert H. apply without_not_split, written_without.
    + exfalso. symmetry in H. revert H. apply without_not_split, written_without.
    + apply split_unique in H as [Hp Hrest]; try apply written_without.
      rewrite (written_inj _ _ Hp). f_equal. now apply IH.
Qed.

Lemma buildQueryString_text (ps : list (string * string)) :
  Forall (fun kv => snd kv <> EmptyString) ps ->
  Server.buildQueryString (text_params ps) = inr (join "&" (map written ps)).
Proof.
  intros Hps. unfold Server.buildQueryString.
  assert (H : map_result
                (fun kv : string * value =>
                   let '(k, v) := kv in
                   text <~ ToString v ;;
                   inr (encodeURIComponent k ++ "=" ++ encodeURIComponent text)%string)
                (filter (fun kv => match snd kv with
                                   | VUndefined | VNull => false
                                   | VStr s => negb (s =? "")%string
                                   | _ => true
                                   end) (text_params ps))
              = inr (map written ps)).
  { induction Hps as [|[k v] ps Hv _ IH]; [reflexivity|].
    cbn [text_params map filter fst snd] in *.
    apply String.eqb_neq in Hv. rewrite Hv. cbn [negb map_result ToString and_then].
    fold (text_params ps). now rewrite IH. }
  now rewrite H.
Qed.

(** [buildQueryString] is injective on parameters whose values are
    non-empty strings: no name or value, whatever characters it has, can
    pass for another list of parameters. *)
Theorem query_string_determines_its_parameters :
  forall ps qs : list (string * string),
    Forall (fun kv => snd kv <> EmptyString) ps ->
    Forall (fun kv => snd kv <> EmptyString) qs ->
    Server.buildQueryString (text_params ps) = Server.buildQueryString (text_params qs) ->
    ps = qs.
Proof.
  intros ps qs Hps Hqs. rewrite !buildQueryString_text by assumption.
  intros [= H]. now apply join_written_inj.
Qed.

(** An empty [state] between two parameters. *)
Lemma absent_parameters_are_left_out_witness :
  Server.buildQueryString
    [("client_id", VStr "client-id"); ("state", VStr EmptyString); ("scope", VStr "a,b")]
  = Server.buildQueryString [("client_id", VStr "client-id"); ("scope", VStr "a,b")].
Proof.
  apply (absent_parameters_are_left_out [("client_id", VStr "client-id")]
           [("scope", VStr "a,b")] "state" (VStr EmptyString)).
  right. right. reflexivity.
Defined.

(** A value that contains an ampersand and an equals sign. *)
Lemma query_string_determines_its_parameters_witness :
  let ps := [("a", "1&b=2")] in
  let qs := [("a", ("1" ++ "&b=2")%string)] in
  Server.buildQueryString (text_params ps) = inr "a=1%26b%3D2" /\ ps = qs.
Proof.
  intros ps qs. split; [reflexivity|].
  apply (query_string_determines_its_parameters ps qs).
  - repeat constructor. discriminate.
  - repeat constructor. discriminate.
  - reflexivity.
Defined.

(** ** Signatures *)

Lemma code_unit_rank_inj (x y : ascii) : code_unit_rank x = code_unit_rank y -> x = y.
Proof.
  intros H. rewrite <- (ascii_N_embedding x), <- (ascii_N_embedding y). f_equal.
  revert H. unfold code_unit_rank.
  generalize (N_of_ascii x) (N_of_ascii y). intros n m.
  destruct (N.leb_spec 238 n), (N.leb_spec n 239), (N.leb_spec 240 n), (N.leb_spec n 244),
    (N.leb_spec 238 m), (N.leb_spec m 239), (N.leb_spec 240 m), (N.leb_spec m 244);
    cbn [andb]; lia.
Qed.

Lemma code_unit_leb_refl (a : string) : code_unit_leb a a = true.
Proof.
  induction a as [|x a IH]; [reflexivity|]. cbn. now rewrite Ascii.eqb_refl.
Qed.

Lemma code_unit_leb_total (a b : string) :
  code_unit_leb a b = false -> code_unit_leb b a = true.
Proof.
  revert b. induction a as [|x a IH]; intros [|y b]; cbn; try easy.
  rewrite (Ascii.eqb_sym y x).
  destruct (Ascii.eqb_spec x y) as [->|Hxy]; [apply IH|].
  rewrite N.ltb_ge, N.ltb_lt. intros H.
  assert (code_unit_rank x <> code_unit_rank y) by (intros E; now apply code_unit_rank_inj in E).
  lia.
Qed.

Lemma code_unit_leb_antisym (a b : string) :
  code_unit_leb a b = true -> code_unit_leb b a = true -> a = b.
Proof.
  revert b. induction a as [|x a IH]; intros [|y b]; cbn; try easy.
  rewrite (Ascii.eqb_sym y x).
  destruct (Ascii.eqb_spec x y) as [->|Hxy]; [intros; f_equal; now apply IH|].
  rewrite !N.ltb_lt. lia.
Qed.

Lemma code_unit_leb_trans (a b c : string) :
  code_unit_leb a b = true -> code_unit_leb b c = true -> code_unit_leb a c = true.
Proof.
  revert b c. induction a as [|x a IH]; intros [|y b] [|z c]; cbn; try easy.
  destruct (Ascii.eqb_spec x y) as [->|Hxy], (Ascii.eqb_spec y z) as [->|Hyz].
  - apply IH.
  - auto.
  - apply Ascii.eqb_neq in Hxy. rewrite Hxy. auto.
  - rewrite !N.ltb_lt. intros H1 H2.
    destruct (Ascii.eqb_spec x z) as [->|Hxz]; [lia|]. apply N.ltb_lt. lia.
Qed.

Lemma insert_sorted_perm (k : string) (l : list string) :
  Permutation (insert_sorted k l) (k :: l).
Proof.
  induction l as [|x l IH]; cbn; [reflexivity|].
  destruct (code_unit_leb x k); [|reflexivity].
  rewrite IH. apply perm_swap.
Qed.

Lemma sort_perm (l : list string) : Permutation (sort l) l.
Proof.
  unfold sort.
  assert (H : forall acc, Permutation (fold_left (fun acc k => insert_sorted k acc) l acc)
                            (l ++ acc)).
  { induction l as [|k l IH]; intros acc; cbn [fold_left app]; [reflexivity|].
    rewrite IH, insert_sorted_perm. symmetry. apply Permutation_middle. }
  rewrite H. now rewrite app_nil_r.
Qed.

Lemma insert_sorted_sorted (k : string) (l : list string) :
  StronglySorted code_unit_le l -> StronglySorted code_unit_le (insert_sorted k l).
Proof.
  induction 1 as [|x l Hl IH Hx]; cbn.
  - repeat constructor.
  - destruct (code_unit_leb x k) eqn:Hxk.
    + constructor; [exact IH|].
      apply Forall_forall. intros y Hy.
      apply (Permutation_in _ (insert_sorted_perm k l)) in Hy as [<-|Hy]; [exact Hxk|].
      rewrite Forall_forall in Hx. auto.
    + apply code_unit_leb_total in Hxk.
      constructor; [now constructor|].
      constructor; [exact Hxk|].
      rewrite Forall_forall in Hx |- *. intros y Hy.
      apply (code_unit_leb_trans k x y Hxk). now apply Hx.
Qed.

Lemma sort_sorted (l : list string) : StronglySorted code_unit_le (sort l).
Proof.
  unfold sort.
  assert (H : forall acc, StronglySorted code_unit_le acc ->
                          StronglySorted code_unit_le
                            (fold_left (fun acc k => insert_sorted k acc) l acc)).
  { induction l as [|k l IH]; intros acc Hacc; cbn [fold_left]; [exact Hacc|].
    apply IH, insert_sorted_sorted, Hacc. }
  apply H. constructor.
Qed.

Lemma sorted_unique (l l' : list string) :
  StronglySorted code_unit_le l -> StronglySorted code_unit_le l' ->
  Permutation l l' -> l = l'.
Proof.
  intros Hl. revert l'. induction Hl as [|x l Hl IH Hx]; intros l' Hl' Hp.
  - now apply Permutation_nil in Hp.
  - destruct Hl' as [|y l' Hl' Hy]; [now apply Permutation_sym, Permutation_nil in Hp|].
    assert (x = y) as <-.
    { rewrite Forall_forall in Hx, Hy.
      assert (Hin : In x (y :: l')) by (apply (Permutation_in _ Hp); now left).
      assert (Hin' : In y (x :: l)) by (apply (Permutation_in _ (Permutation_sym Hp)); now left).
      destruct Hin as [->|Hin]; [reflexivity|].
      destruct Hin' as [->|Hin']; [reflexivity|].
      apply code_unit_leb_antisym; [apply Hx, Hin'|apply Hy, Hin]. }
    f_equal. apply IH; [exact Hl'|]. now apply Permutation_cons_inv in Hp.
Qed.

Lemma sort_permuted (l l' : list string) : Permutation l l' -> sort l = sort l'.
Proof.
  intros Hp. apply sorted_unique; try apply sort_sorted.
  now rewrite !sort_perm.
Qed.

Lemma lookup_In (k : string) (v : value) (q : list (string * value)) :
  lookup k q = Some v -> In (k, v) q.
Proof.
  induction q as [|[k' v'] q IH]; cbn; [discriminate|].
  destruct (String.eqb_spec k' k) as [->|Hk]; [intros [= ->]; now left|auto].
Qed.

Lemma In_lookup (k : string) (v : value) (q : list (string * value)) :
  NoDup (keys q) -> In (k, v) q -> lookup k q = Some v.
Proof.
  induction q as [|[k' v'] q IH]; cbn; [intros _ []|].
  intros Hnd [[= -> ->]|Hin]; [now rewrite String.eqb_refl|].
  inversion Hnd as [|? ? Hk' Hq]; subst.
  destruct (String.eqb_spec k' k) as [->|Hk]; [|auto].
  exfalso. apply Hk'. now apply (in_map fst) in Hin.
Qed.

Lemma lookup_permuted (k : string) (q q' : list (string * value)) :
  NoDup (keys q) -> Permutation q q' -> lookup k q = lookup k q'.
Proof.
  intros Hnd Hp.
  assert (Hnd' : NoDup (keys q'))
    by (apply (Permutation_NoDup (Permutation_map fst Hp)), Hnd).
  destruct (lookup k q) as [v|] eqn:Hq.
  - symmetry. apply In_lookup; [exact Hnd'|].
    apply (Permutation_in _ Hp). now apply lookup_In.
  - destruct (lookup k q') as [v'|] eqn:Hq'; [|reflexivity].
    apply lookup_In, (Permutation_in _ (Permutation_sym Hp)), (In_lookup _ _ _ Hnd) in Hq'.
    congruence.
Qed.

Lemma remove_permuted (k : string) (q q' : list (string * value)) :
  Permutation q q' -> Permutation (remove k q) (remove k q').
Proof.
  unfold remove. induction 1 as [|x l l' _ IH|x y l|l l' l'' _ IH _ IH']; cbn.
  - reflexivity.
  - destruct (negb _); [now constructor|exact IH].
  - destruct (negb (fst x =? k)%string), (negb (fst y =? k)%string);
      try reflexivity. apply perm_swap.
  - now transitivity (filter (fun kv => negb (fst kv =? k)%string) l').
Qed.

Lemma remove_NoDup (k : string) (q : list (string * value)) :
  NoDup (keys q) -> NoDup (keys (remove k q)).
Proof.
  unfold remove, keys. induction q as [|[k' v] q IH]; cbn; [auto|].
  intros Hnd. inversion Hnd as [|? ? Hk' Hq]; subst.
  destruct (negb _); cbn; [|auto].
  constructor; [|auto]. intros Hin. apply Hk'.
  apply in_map_iff in Hin as ([k0 v0] & <- & Hin). apply filter_In in Hin as [Hin _].
  now apply (in_map fst) in Hin.
Qed.

Lemma map_result_ext {A B : Type} (f g : A -> result B) (l : list A) :
  (forall x, f x = g x) -> map_result f l = map_result g l.
Proof.
  intros H. induction l as [|x l IH]; [reflexivity|]. cbn. now rewrite H, IH.
Qed.

Lemma get_permuted (k : string) (q q' : list (string * value)) :
  NoDup (keys q) -> Permutation q q' -> get (VObj q) k = get (VObj q') k.
Proof.
  intros Hnd Hp. cbn. now rewrite (lookup_permuted k q q' Hnd Hp).
Qed.

Lemma hmac_message_permuted (q q' : list (string * value)) :
  NoDup (keys q) -> Permutation q q' -> Server.hmac_message q = Server.hmac_message q'.
Proof.
  intros Hnd Hp. unfold Server.hmac_message.
  rewrite (sort_permuted (keys q) (keys q')) by now apply Permutation_map.
  f_equal. apply map_result_ext. intros key.
  now rewrite (get_permuted key q q' Hnd Hp).
Qed.

Lemma proxy_message_permuted (q q' : list (string * value)) :
  NoDup (keys q) -> Permutation q q' -> proxy_message q = proxy_message q'.
Proof.
  intros Hnd Hp. unfold proxy_message.
  rewrite (sort_permuted (keys q) (keys q')) by now apply Permutation_map.
  f_equal. apply map_result_ext. intros key.
  now rewrite (get_permuted key q q' Hnd Hp).
Qed.

Lemma verifyAppProxy_message (req : request) (secret : value) :
  Server.verifyAppProxy req secret =
    if negb (truthy (get (VObj (query req)) "signature")) then inr false
    else
      message <~ proxy_message (remove "signature" (query req)) ;;
      digest <~ createHmac_digest secret message ;;
      inr (strict_eq_string (get (VObj (query req)) "signature") digest).
Proof.
  unfold Server.verifyAppProxy, proxy_message.
  destruct (negb _); [reflexivity|].
  now destruct (map_result _ _).
Qed.

(** [verifyHmac] and [verifyAppProxy] do not depend on the order of the
    query's parameters (of distinct names): the names are sorted before the
    message is written. *)
Theorem signatures_ignore_parameter_order :
  forall (w : world) (q q' : list (string * value)) (sent : option json) (secret : value),
    NoDup (keys q) ->
    Permutation q q' ->
    Server.verifyHmac w q secret = Server.verifyHmac w q' secret /\
    Server.verifyAppProxy {| query := q; json_sent := sent |} secret
    = Server.verifyAppProxy {| query := q'; json_sent := sent |} secret.
Proof.
  intros w q q' sent secret Hnd Hp. split.
  - unfold Server.verifyHmac.
    rewrite (get_permuted "hmac" q q' Hnd Hp).
    now rewrite (hmac_message_permuted _ _ (remove_NoDup "hmac" q Hnd)
                   (remove_permuted "hmac" q q' Hp)).
  - rewrite !verifyAppProxy_message. cbn [query].
    rewrite (get_permuted "signature" q q' Hnd Hp).
    now rewrite (proxy_message_permuted _ _ (remove_NoDup "signature" q Hnd)
                   (remove_permuted "signature" q q' Hp)).
Qed.

(** The signed callback, its parameters in another order. *)
Lemma signatures_ignore_parameter_order_witness :
  Server.verifyHmac unreachable
    [ ("shop", VStr "s.myshopify.com");
      ("hmac", VStr "f2ec6fa619e8fad0920b0ba98722bd54c9527c2fbc9ab491f08ba6afa2926511");
      ("code", VStr "c0de") ] (VStr "hush")
  = Server.verifyHmac unreachable signed_query (VStr "hush").
Proof.
  refine (proj1 (signatures_ignore_parameter_order unreachable
                   [ ("shop", VStr "s.myshopify.com");
                     ("hmac", VStr "f2ec6fa619e8fad0920b0ba98722bd54c9527c2fbc9ab491f08ba6afa2926511");
                     ("code", VStr "c0de") ]
                   signed_query None (VStr "hush") _ _)).
  - repeat constructor; cbn; intuition discriminate.
  - apply Permutation_sym.
    apply perm_trans with [ ("code", VStr "c0de"); ("shop", VStr "s.myshopify.com");
                            ("hmac", VStr "f2ec6fa619e8fad0920b0ba98722bd54c9527c2fbc9ab491f08ba6afa2926511") ].
    + apply perm_skip, perm_swap.
    + apply perm_trans with [ ("shop", VStr "s.myshopify.com"); ("code", VStr "c0de");
                              ("hmac", VStr "f2ec6fa619e8fad0920b0ba98722bd54c9527c2fbc9ab491f08ba6afa2926511") ].
      * apply perm_swap.
      * apply perm_skip, perm_swap.
Defined.

Lemma digest_not_empty (key message : string) :
  ("" =? hmac_sha256_hex key message)%string = false.
Proof.
  pose proof (hmac_sha256_hex_length key message) as H.
  now destruct (hmac_sha256_hex key message).
Qed.

Lemma proxy_message_of_strings (q : list (string * value)) :
  all_strings q -> exists message, proxy_message q = inr message.
Proof.
  intros Hall. unfold proxy_message.
  destruct (map_result_all
              (fun k => text <~ ToString (get (VObj q) k) ;; inr (k ++ "=" ++ text)%string)
              (sort (keys q))) as [pairs ->]; [|cbn; eauto].
  intros key Hin. apply In_sort in Hin.
  destruct (lookup_all (fun v => exists s, v = VStr s) key q Hall Hin)
    as (v & Hv & s & ->).
  cbn [get]. rewrite Hv. cbn. eauto.
Qed.

(** With a string secret, [verifyAppProxy] returns true exactly when
    [signature] is the string that is the hexadecimal HMAC-SHA-256 of the
    message, and false otherwise, whatever the length of [signature]: it
    throws only when the message cannot be written, which does not happen
    when every parameter is a string. Without a [signature] it returns
    false before anything is computed. *)
Theorem proxy_signature_is_compared_with_the_digest :
  forall (req : request) (key : string),
    let signature := get (VObj (query req)) "signature" in
    let rest := remove "signature" (query req) in
    (forall message,
        proxy_message rest = inr message ->
        Server.verifyAppProxy req (VStr key)
        = inr (strict_eq_string signature (hmac_sha256_hex key message)))
    /\
    (all_strings (query req) -> exists message, proxy_message rest = inr message)
    /\
    (truthy signature = false -> forall secret, Server.verifyAppProxy req secret = inr false).
Proof.
  intros req key signature rest. repeat split.
  - intros message Hmessage. rewrite verifyAppProxy_message. fold signature rest.
    rewrite Hmessage. cbn [and_then createHmac_digest].
    destruct (truthy signature) eqn:Hs; [reflexivity|]. cbn [negb].
    destruct signature as [| |[|]|n|s|l|o]; try discriminate; try reflexivity.
    cbn in Hs. apply negb_false_iff, String.eqb_eq in Hs as ->.
    cbn [strict_eq_string]. now rewrite digest_not_empty.
  - intros Hall. now apply proxy_message_of_strings, all_strings_remove.
  - intros Hs secret. rewrite verifyAppProxy_message. fold signature. now rewrite Hs.
Qed.

(** A request signed under the example secret, and a forged one. *)
Lemma proxy_signature_is_compared_with_the_digest_witness :
  let signed (signature : string) :=
    {| query := [ ("shop", VStr "s.myshopify.com"); ("signature", VStr signature);
                  ("path_prefix", VStr "/apps/customization-request") ];
       json_sent := None |} in
  let digest :=
    hmac_sha256_hex "hush" "path_prefix=/apps/customization-requestshop=s.myshopify.com" in
  Server.verifyAppProxy (signed digest) (VStr "hush") = inr true /\
  Server.verifyAppProxy (signed "forged") (VStr "hush") = inr false.
Proof.
  intros signed digest. split.
  - rewrite (proj1 (proxy_signature_is_compared_with_the_digest (signed digest) "hush")
               "path_prefix=/apps/customization-requestshop=s.myshopify.com" eq_refl).
    cbn [signed query get lookup String.eqb Ascii.eqb Bool.eqb strict_eq_string].
    now rewrite String.eqb_refl.
  - rewrite (proj1 (proxy_signature_is_compared_with_the_digest (signed "forged") "hush")
               "path_prefix=/apps/customization-requestshop=s.myshopify.com" eq_refl).
    vm_compute. reflexivity.
Defined.



Lemma Array_join_strings (l : list string) :
  Array_join "," (map VStr l) = inr (join "," l).
Proof.
  unfold Array_join.
  assert (H : map_result (fun x => match x with
                                   | VUndefined | VNull => inr EmptyString
                                   | _ => ToString x
                                   end) (map VStr l) = inr l).
  { induction l as [|s l IH]; [reflexivity|]. cbn [map map_result]. rewrite IH. reflexivity. }
  now rewrite H.
Qed.

Lemma lookup_middle {A : Type} (k k' : string) (v : A) (a b : list (string * A)) :
  lookup k' (a ++ (k, v) :: b)
  = match lookup k' a with
    | Some x => Some x
    | None => if (k =? k')%string then Some v else lookup k' b
    end.
Proof.
  induction a as [|[k0 v0] a IH]; cbn; [reflexivity|].
  now destruct (k0 =? k')%string.
Qed.

Lemma keys_middle {A : Type} (k : string) (v v' : A) (a b : list (string * A)) :
  keys (a ++ (k, v) :: b) = keys (a ++ (k, v') :: b).
Proof.
  unfold keys. now rewrite !map_app.
Qed.

Lemma remove_middle {A : Type} (k k' : string) (v : A) (a b : list (string * A)) :
  k <> k' ->
  remove k' (a ++ (k, v) :: b) = remove k' a ++ (k, v) :: remove k' b.
Proof.
  intros Hk. unfold remove. rewrite filter_app. cbn.
  apply String.eqb_neq in Hk. now rewrite Hk.
Qed.

Lemma hmac_message_joined (a b : list (string * value)) (k : string) (l : list string) :
  Server.hmac_message (a ++ (k, VArr (map VStr l)) :: b)
  = Server.hmac_message (a ++ (k, VStr (join "," l)) :: b).
Proof.
  unfold Server.hmac_message.
  rewrite (keys_middle k (VArr (map VStr l)) (VStr (join "," l))).
  f_equal. apply map_result_ext. intros key. cbn [get].
  rewrite !lookup_middle.
  destruct (lookup key a); [reflexivity|].
  destruct (k =? key)%string; [|reflexivity].
  now rewrite Array_join_strings.
Qed.

Lemma proxy_message_joined (a b : list (string * value)) (k : string) (l : list string) :
  proxy_message (a ++ (k, VArr (map VStr l)) :: b)
  = proxy_message (a ++ (k, VStr (join "," l)) :: b).
Proof.
  unfold proxy_message.
  rewrite (keys_middle k (VArr (map VStr l)) (VStr (join "," l))).
  f_equal. apply map_result_ext. intros key. cbn [get].
  rewrite !lookup_middle.
  destruct (lookup key a); [reflexivity|].
  destruct (k =? key)%string; [|reflexivity].
  now rewrite ToString_array, Array_join_strings.
Qed.

(** A parameter given several times (an array of strings) is signed as
    the one string that joins them with commas: both queries verify alike. *)
Theorem repeated_parameter_signs_as_its_join :
  forall (w : world) (a b : list (string * value)) (k : string) (l : list string)
         (sent : option json) (secret : value),
    (k <> "hmac" ->
     Server.verifyHmac w (a ++ (k, VArr (map VStr l)) :: b) secret
     = Server.verifyHmac w (a ++ (k, VStr (join "," l)) :: b) secret)
    /\
    (k <> "signature" ->
     Server.verifyAppProxy {| query := a ++ (k, VArr (map VStr l)) :: b; json_sent := sent |}
       secret
     = Server.verifyAppProxy {| query := a ++ (k, VStr (join "," l)) :: b; json_sent := sent |}
         secret).
Proof.
  intros w a b k l sent secret. split; intros Hk.
  - unfold Server.verifyHmac. cbn [get].
    rewrite !lookup_middle, !(remove_middle _ _ _ _ _ Hk), hmac_message_joined.
    apply String.eqb_neq in Hk. now rewrite Hk.
  - rewrite !verifyAppProxy_message. cbn [query get].
    rewrite !lookup_middle, !(remove_middle _ _ _ _ _ Hk), proxy_message_joined.
    apply String.eqb_neq in Hk. now rewrite Hk.
Qed.

(** [?shop=a&shop=b] and [?shop=a,b]. *)
Lemma repeated_parameter_signs_as_its_join_witness :
  let hmac := VStr "f2ec6fa619e8fad0920b0ba98722bd54c9527c2fbc9ab491f08ba6afa2926511" in
  Server.verifyHmac unreachable
    [("code", VStr "c0de"); ("hmac", hmac); ("shop", VArr [VStr "a"; VStr "b"])] (VStr "hush")
  = Server.verifyHmac unreachable
      [("code", VStr "c0de"); ("hmac", hmac); ("shop", VStr "a,b")] (VStr "hush").
Proof.
  intros hmac.
  apply (proj1 (repeated_parameter_signs_as_its_join unreachable
                  [("code", VStr "c0de"); ("hmac", hmac)] [] "shop" ["a"; "b"] None
                  (VStr "hush"))).
  discriminate.
Defined.

(** ** The 401 for a missing token; names that are not strings *)

Lemma settle_not_token_missing (w : world) (c : fetch_request) :
  settle w server_reply (network w c) <> token_missing.
Proof.
  intros H.
  pose proof (settle_status w server_reply (network w c) server_reply_cases) as Hs.
  rewrite H in Hs. cbn in Hs. intuition discriminate.
Qed.

(** [server.js] answers 401 "App not installed / token missing" exactly
    when the request is past the signature gate and no token with an
    [access_token] is stored: no other path gives this response. *)
Theorem token_is_missing_exactly_past_the_gate :
  forall (w : world) (env : process_env) (req : request) (d : disk),
    responded (run (Server.customization_request w env req) d) = inr token_missing
    <-> gate_passes env req /\ truthy (get (stored d) "access_token") = false.
Proof.
  intros w env req d. split.
  - rewrite server_run, server_try_run. unfold gate_passes.
    assert (Hsub : responded (caught w (Server.submit w env req (fresh d))) = inr token_missing ->
                   truthy (get (stored d) "access_token") = false).
    { rewrite submit_run. cbn [fresh files].
      destruct (truthy (get (stored d) "access_token")); [|reflexivity]. cbn [negb].
      destruct (negb _); [discriminate|].
      destruct (input_of req) as [e|input]; [discriminate|].
      destruct (server_call _ _ _) as [e|c]; [discriminate|].
      fold (fresh d). rewrite caught_called. cbn [responded].
      intros [= H]. now apply settle_not_token_missing in H. }
    destruct (strict_eq_string _ _); [|intros H; split; [now left|auto]].
    destruct (Server.verifyAppProxy _ _) as [e|[|]]; [discriminate| |discriminate].
    intros H; split; [now right|auto].
  - intros [Hgate Htok].
    rewrite server_run, (server_try_passed _ _ _ _ Hgate), submit_run.
    cbn [fresh files]. now rewrite Htok.
Qed.

Lemma trim_not_a_function (v : value) :
  text_or_absent v = false ->
  trim_method (or_else v (VStr EmptyString)) = inl TypeError_not_a_function.
Proof.
  unfold or_else. destruct v as [| |[|]|n|s|l|o]; cbn; try discriminate; try reflexivity.
  destruct (n =? 0)%Z; cbn; [discriminate|reflexivity].
Qed.

Lemma draftInput_name_not_text (phone title link : string) (product customer : value) :
  get product "title" = VStr title ->
  get product "url" = VStr link ->
  truthy (get customer "logged_in") = true ->
  text_or_absent (get customer "first_name") && text_or_absent (get customer "last_name")
  = false ->
  Server.draftInput (VStr phone) product customer = inl TypeError_not_a_function.
Proof.
  intros Htitle Hlink Hin Hnames.
  unfold Server.draftInput, Server.noteLines.
  rewrite !(prop_of_string _ _ _ _ Htitle), Htitle, Hlink, Hin. cbn [and_then ToString].
  rewrite !(prop_get _ _ _ Hin). cbn [and_then].
  destruct (text_or_absent (get customer "first_name")) eqn:Hfirst.
  - cbn [andb] in Hnames. rewrite (trim_or_empty _ Hfirst). cbn [and_then].
    now rewrite (trim_not_a_function _ Hnames).
  - now rewrite (trim_not_a_function _ Hfirst).
Qed.

(** A logged-in customer whose first or last name is neither a string nor
    falsy (a number, [true], an array, an object): [.trim] is not a
    function of it, and a submission that is complete otherwise ends in the
    500 of the [catch], with nothing sent, in both variants. *)
Theorem name_that_is_not_text_is_a_server_error :
  forall (w : world) (env : process_env) (req : request) (d : disk)
         (phone title link : string),
    let body := submitted req in
    let customer := get body "customer" in
    get body "phone" = VStr phone -> phone <> EmptyString ->
    get (get body "product") "title" = VStr title -> title <> EmptyString ->
    get (get body "product") "url" = VStr link -> link <> EmptyString ->
    truthy (get customer "logged_in") = true ->
    text_or_absent (get customer "first_name") && text_or_absent (get customer "last_name")
    = false ->
    let o := run (Server.customization_request w env req) d in
    let o' := run (Static.customization_request w env req) d in
    (gate_passes env req -> truthy (get (stored d) "access_token") = true ->
     responded o = inr (server_error w TypeError_not_a_function) /\ events o = [])
    /\
    (configured env = true ->
     responded o' = inr (server_error w TypeError_not_a_function) /\ events o' = []).
Proof.
  intros w env req d phone title link body customer Hphone Hp Htitle Ht Hlink Hl Hin Hnames o o'.
  assert (Hbody : complete body = true).
  { unfold complete. rewrite Hphone, Htitle, Hlink. now rewrite !nonempty_truthy. }
  assert (Hinput : input_of req = inl TypeError_not_a_function).
  { unfold input_of. fold body. rewrite Hphone.
    now apply (draftInput_name_not_text phone title link). }
  split.
  - intros Hgate Htok. subst o.
    rewrite server_run, (server_try_passed _ _ _ _ Hgate), submit_run.
    cbn [fresh files]. fold body. rewrite Htok, Hbody, Hinput. now split.
  - intros Hconf. subst o'.
    rewrite static_run, static_try_run. fold body. rewrite Hconf, Hbody, Hinput. now split.
Qed.

(** A last name that is an array. *)
Lemma name_that_is_not_text_is_a_server_error_witness :
  let req := {| query := [];
                json_sent :=
                  Some (JObj [ ("phone", JStr "0100 555 0100");
                               ("product", JObj [("title", JStr "Mug");
                                                 ("url", JStr "/products/mug")]);
                               ("customer", JObj [("logged_in", JBool true);
                                                  ("first_name", JStr "Nour");
                                                  ("last_name", JArr [JStr "El"])]) ]) |} in
  responded (run (Static.customization_request unreachable example_env req) NoDir)
  = inr (server_error unreachable TypeError_not_a_function).
Proof.
  intros req.
  refine (proj1 (proj2 (name_that_is_not_text_is_a_server_error unreachable example_env req NoDir
                          "0100 555 0100" "Mug" "/products/mug"
                          eq_refl _ eq_refl _ eq_refl _ eq_refl eq_refl) eq_refl));
    discriminate.
Defined.
